(** * iptvTester: stream liveness classifier and playlist parser

    A shallow embedding of [iptvTester.py] and the statements of its
    specification, C1 to C10.

    - [PyStr]: the operations of Python's [str] and [re] that the program
      uses ([strip], [startswith], [in], [re.search(r",(.+)", _)]).
    - [parse_m3u_lines]: the playlist parser.
    - [Probe]: the probing functions [test_channel] and
      [check_stream_status], written in a small state-and-exception monad
      over the world of a session (clock, subprocess, console); what the
      outside does in the session is given by an environment record.
    - [main]: the loop of [main] over the finished futures.

    Conventions of the model.
    - A Python [str] is a [string] whose characters are the code points
      below 256.
    - Durations and clock readings are integers in milliseconds: the call
      [test_channel(n, u, timeout=4, grace_period=1, extended_check=2)]
      of [main] is [test_channel n u 4000 1000 2000].  The clock of a
      session starts at 0 and advances only in [time.sleep], by the time
      asked for, and in [process.wait].
    - The prober exits by itself at the time [self_exit] of the
      environment, if any; it obeys SIGTERM after [sigterm_exit], if at
      all; after SIGKILL or a successful [taskkill /F] it is still there
      for [sigkill_exit], and the program does not wait for it.
      [taskkill] may also return a status other than 0 ([taskkill_ok]
      false) and leave the process as it is.
    - The reader thread has put into [output_lines] the lines that have
      arrived by the time of the clock.
    - The calls listed in [Op] may raise an [Exception].  [print] raises
      when the console has no line left ([prints_left]); the sessions
      of [initial_world] have a console that accepts every line.
    - The loops take fuel; [fuel_for] gives them more than they use
      ([fuel_for_enough]), so [OutOfFuel] never comes out of a session
      ([test_channel_run]). *)

From Stdlib Require Import ZArith List String Ascii Bool Lia Permutation.
Import ListNotations.
Local Open Scope string_scope.
Local Open Scope Z_scope.

(* ===================================================================== *)
(** ** Python string operations *)
(* ===================================================================== *)

Module PyStr.

(** [str.isspace] on one character, for code points below 256:
    TAB LF VT FF CR, FS GS RS US, SPACE, NEL (0x85) and NBSP (0xA0). *)
Definition isspace (c : ascii) : bool :=
  let n := nat_of_ascii c in
  ((9 <=? n) && (n <=? 13) || (28 <=? n) && (n <=? 32)
   || (n =? 133) || (n =? 160))%nat.

Fixpoint lstrip (s : string) : string :=
  match s with
  | EmptyString => EmptyString
  | String c s' => if isspace c then lstrip s' else s
  end.

Fixpoint rstrip (s : string) : string :=
  match s with
  | EmptyString => EmptyString
  | String c s' =>
      match rstrip s' with
      | EmptyString => if isspace c then EmptyString else String c EmptyString
      | r => String c r
      end
  end.

(** [s.strip()] *)
Definition strip (s : string) : string := rstrip (lstrip s).

(** [s.startswith(p)] *)
Definition startswith (s p : string) : bool := String.prefix p s.

(** [k in line]: substring test. *)
Fixpoint contains (line k : string) {struct line} : bool :=
  String.prefix k line
  || match line with
     | EmptyString => false
     | String _ rest => contains rest k
     end.

(** [any(k in line for k in keywords)] *)
Definition any_in (keywords : list string) (line : string) : bool :=
  existsb (contains line) keywords.

(** The regular expression [.] matches every character but LF. *)
Definition is_dot (c : ascii) : bool := negb (c =? "010")%char.

(** The greedy [.+] (or [.*]) anchored at the head of [s]: the longest
    run of characters that [.] matches. *)
Fixpoint dot_run (s : string) : string :=
  match s with
  | EmptyString => EmptyString
  | String c r => if is_dot c then String c (dot_run r) else EmptyString
  end.

(** [re.search(r",(.+)", s)]: [None] when there is no match, otherwise
    [group(1)] of the leftmost match. *)
Fixpoint search_comma_group (s : string) : option string :=
  match s with
  | EmptyString => None
  | String c r =>
      if (c =? ",")%char then
        match dot_run r with
        | EmptyString => search_comma_group r
        | g => Some g
        end
      else search_comma_group r
  end.

End PyStr.

(* ===================================================================== *)
(** ** The playlist parser *)
(* ===================================================================== *)

Definition Entry : Type := string * string.

(** One iteration of the loop of [parse_m3u_lines]; the state is
    [(current_name, entries)]. *)
Definition parse_step (st : string * list Entry) (line : string)
  : string * list Entry :=
  let '(current_name, entries) := st in
  let line := PyStr.strip line in
  if PyStr.startswith line "#EXTINF:" then
    match PyStr.search_comma_group line with
    | Some g => (PyStr.strip g, entries)
    | None => (current_name, entries)
    end
  else if PyStr.startswith line "http" then
    (current_name, (entries ++ [(current_name, line)])%list)
  else (current_name, entries).

Definition parse_loop (st : string * list Entry) (lines : list string)
  : string * list Entry :=
  fold_left parse_step lines st.

Definition parse_m3u_lines (lines : list string) : list Entry :=
  snd (parse_loop ("Unknown", []) lines).

Definition LF : string := String "010" EmptyString.

(* ===================================================================== *)
(** ** Probe sessions *)
(* ===================================================================== *)

Module Probe.

(** The library calls of a session that can raise an [Exception]:
    [subprocess.Popen] (prober missing, bad argument),
    [Thread.start] (no thread available), [subprocess.call] of taskkill,
    [process.terminate] and [process.kill]. *)
Inductive Op : Type :=
| OpPopen | OpThreadStart | OpTaskkill | OpTerminate | OpKill.

(** The exceptions of a session: the one of a library call, and the one
    of [print] (the console cannot encode the line, or is closed). *)
Inductive Exn : Type :=
| PyException (op : Op)
| PrintError.

(** What the outside world does in one session.  Times are clock
    readings of the session, in milliseconds. *)
Record Env : Type := mkEnv {
  is_windows : bool;                  (* platform.system() == "Windows" *)
  raises : Op -> bool;                (* the calls that raise *)
  stderr_lines : list (Z * string);   (* (arrival time, line), stream order *)
  self_exit : option Z;               (* when the prober exits by itself *)
  sigterm_exit : option Z;            (* how long it takes to obey SIGTERM *)
  taskkill_ok : bool;                 (* taskkill returns the status 0 *)
  sigkill_exit : Z                    (* how long the process is still there
                                         after SIGKILL or taskkill /F *)
}.

(** What [print] writes, one constructor per message of the source. *)
Inductive Msg : Type :=
| MsgTesting (name : string)
| MsgTestingUrl (name url : string)
| MsgConnecting
| MsgSuccess (name : string)
| MsgMaybe (name : string)
| MsgFail (name : string)
| MsgError (name : string) (e : Exn).

Record World : Type := mkWorld {
  now : Z;                  (* time.time() *)
  spawned : bool;           (* Popen has created the subprocess *)
  sigterm_at : option Z;    (* when process.terminate() was sent *)
  killed : option Z;        (* when SIGKILL or taskkill /F was delivered *)
  console : list Msg;       (* stdout, oldest first *)
  prints_left : option nat  (* the lines the console still accepts;
                               [None]: it accepts every line *)
}.

(** The world in which a session starts, with a console that accepts
    [k] lines. *)
Definition console_world (k : option nat) : World :=
  mkWorld 0 false None None [] k.

(** The same with a console that accepts every line. *)
Definition initial_world : World := console_world None.

Definition opt_le (o : option Z) (t : Z) : bool :=
  match o with
  | Some e => e <=? t
  | None => false
  end.

(** The time at which SIGTERM, if sent and obeyed, ends the process. *)
Definition sigterm_death (env : Env) (w : World) : option Z :=
  match sigterm_at w, sigterm_exit env with
  | Some t0, Some k => Some (t0 + Z.max 0 k)
  | _, _ => None
  end.

(** The time at which SIGKILL or taskkill /F, if delivered, has ended
    the process: nothing in the program waits for it. *)
Definition kill_death (env : Env) (w : World) : option Z :=
  match killed w with
  | Some t0 => Some (t0 + Z.max 0 (sigkill_exit env))
  | None => None
  end.

(** The subprocess has ended by time [t]. *)
Definition dead_by (env : Env) (w : World) (t : Z) : bool :=
  opt_le (kill_death env w) t || opt_le (self_exit env) t
  || opt_le (sigterm_death env w) t.

(** The subprocess exists and is still running. *)
Definition running (env : Env) (w : World) : bool :=
  spawned w && negb (dead_by env w (now w)).

(** *** The monad: state, exceptions, and the fuel of the loops *)

Inductive Res (A : Type) : Type :=
| Ret (a : A)
| Raise (e : Exn)
| OutOfFuel.
Arguments Ret {A} a.
Arguments Raise {A} e.
Arguments OutOfFuel {A}.

Definition M (A : Type) : Type := World -> Res A * World.

Definition ret {A} (a : A) : M A := fun w => (Ret a, w).

Definition bind {A B} (m : M A) (f : A -> M B) : M B :=
  fun w =>
    match m w with
    | (Ret a, w') => f a w'
    | (Raise e, w') => (Raise e, w')
    | (OutOfFuel, w') => (OutOfFuel, w')
    end.

Definition raise {A} (e : Exn) : M A := fun w => (Raise e, w).

(** [try: body  except Exception as e: handler(e)] *)
Definition try_except {A} (body : M A) (handler : Exn -> M A) : M A :=
  fun w =>
    match body w with
    | (Raise e, w') => handler e w'
    | r => r
    end.

Declare Scope probe_scope.
Delimit Scope probe_scope with probe.
Notation "x <- m ;; k" := (bind m (fun x => k))
  (at level 61, m at next level, right associativity) : probe_scope.
Notation "m ;; k" := (bind m (fun _ => k))
  (at level 61, right associativity) : probe_scope.
Local Open Scope probe_scope.

Definition Flags : Type := bool * bool.   (* success, connection *)

(** [for line in output_lines: ...] of the main loop. *)
Definition scan_main (success_keywords connecting_keywords lines : list string)
  (fl : Flags) : Flags :=
  fold_left
    (fun (f : Flags) (line : string) =>
       let f1 := if PyStr.any_in success_keywords line then (true, snd f) else f in
       if PyStr.any_in connecting_keywords line then (fst f1, true) else f1)
    lines fl.

(** [for line in output_lines: if any(...): success_detected = True; break]
    of the extended loop. *)
Fixpoint scan_extended (success_keywords lines : list string)
  (success_detected : bool) : bool :=
  match lines with
  | [] => success_detected
  | line :: rest =>
      if PyStr.any_in success_keywords line then true
      else scan_extended success_keywords rest success_detected
  end.

(** Calls of either loop that are enough for a bound of [d]
    milliseconds: one per 200 ms tick, and the last test of the
    condition. *)
Definition fuel_for (d : Z) : nat := S (S (Z.to_nat (d / 200))).

Section Session.

Variable env : Env.

Definition guard (op : Op) : M unit :=
  if raises env op then raise (PyException op) else ret tt.

(** [print(...)]: it raises when the console does not accept the line. *)
Definition print (m : Msg) : M unit :=
  fun w =>
    match prints_left w with
    | Some O => (Raise PrintError, w)
    | Some (S k) =>
        (Ret tt,
         mkWorld (now w) (spawned w) (sigterm_at w) (killed w)
                 (console w ++ [m]) (Some k))
    | None =>
        (Ret tt,
         mkWorld (now w) (spawned w) (sigterm_at w) (killed w)
                 (console w ++ [m]) None)
    end.

(** [subprocess.Popen(["ffplay", ...], ...)] *)
Definition popen : M unit :=
  guard OpPopen ;;
  fun w => (Ret tt,
            mkWorld (now w) true (sigterm_at w) (killed w) (console w)
                    (prints_left w)).

(** [threading.Thread(target=read_stderr, daemon=True).start()] *)
Definition thread_start : M unit := guard OpThreadStart.

(** [time.time()] *)
Definition time_time : M Z := fun w => (Ret (now w), w).

(** [time.sleep(d)] *)
Definition sleep (d : Z) : M unit :=
  fun w => (Ret tt,
            mkWorld (now w + d) (spawned w) (sigterm_at w) (killed w) (console w)
                    (prints_left w)).

(** [process.poll() is not None] *)
Definition poll_exited : M bool :=
  fun w => (Ret (negb (running env w)), w).

(** The list [output_lines] as the reader thread has filled it. *)
Definition output_lines : M (list string) :=
  fun w => (Ret (map snd (filter (fun p => fst p <=? now w) (stderr_lines env))), w).

(** [subprocess.call(['taskkill', '/F', '/T', '/PID', ...])]: the status
    that taskkill returns is not looked at; with a status other than 0
    the process has not been touched. *)
Definition taskkill : M unit :=
  guard OpTaskkill ;;
  fun w =>
    (Ret tt,
     if taskkill_ok env then
       mkWorld (now w) (spawned w) (sigterm_at w)
               (match killed w with Some t => Some t | None => Some (now w) end)
               (console w) (prints_left w)
     else w).

(** [process.terminate()] *)
Definition terminate : M unit :=
  guard OpTerminate ;;
  fun w => (Ret tt,
            mkWorld (now w) (spawned w)
                    (match sigterm_at w with Some t => Some t | None => Some (now w) end)
                    (killed w) (console w) (prints_left w)).

(** [process.kill()]: it sends SIGKILL and returns. *)
Definition kill : M unit :=
  guard OpKill ;;
  fun w => (Ret tt,
            mkWorld (now w) (spawned w) (sigterm_at w)
                    (match killed w with Some t => Some t | None => Some (now w) end)
                    (console w) (prints_left w)).

(** [process.wait(timeout=d)]: [true] when the process ends within
    [d], [false] for [subprocess.TimeoutExpired]. *)
Definition wait (d : Z) : M bool :=
  fun w =>
    if dead_by env w (now w) then (Ret true, w)
    else
      let ends :=
        filter (fun e => e <=? now w + d)
               (match self_exit env with Some e => [e] | None => [] end
                ++ match sigterm_death env w with Some e => [e] | None => [] end
                ++ match kill_death env w with Some e => [e] | None => [] end) in
      match ends with
      | [] => (Ret false,
               mkWorld (now w + d) (spawned w) (sigterm_at w) (killed w) (console w)
                       (prints_left w))
      | e :: rest =>
          (Ret true,
           mkWorld (fold_left Z.min rest e) (spawned w) (sigterm_at w) (killed w)
                   (console w) (prints_left w))
      end.

(** The main polling loop, [while time.time() - start_time < timeout]. *)
Fixpoint main_loop (fuel : nat) (success_keywords connecting_keywords : list string)
  (start_time timeout grace_period : Z) (fl : Flags) : M Flags :=
  match fuel with
  | O => fun w => (OutOfFuel, w)
  | S fuel' =>
      t <- time_time ;;
      if t - start_time <? timeout then
        exited <- poll_exited ;;
        if exited then ret fl
        else
          t' <- time_time ;;
          let current_time := t' - start_time in
          lines <- output_lines ;;
          let fl' := scan_main success_keywords connecting_keywords lines fl in
          if fst fl' && (grace_period <=? current_time) then ret fl'
          else
            sleep 200 ;;
            main_loop fuel' success_keywords connecting_keywords
                      start_time timeout grace_period fl'
      else ret fl
  end.

(** The extended loop, [while time.time() - extra_time < extended_check];
    it returns [success_detected]. *)
Fixpoint extended_loop (fuel : nat) (success_keywords : list string)
  (extra_time extended_check : Z) (success_detected : bool) : M bool :=
  match fuel with
  | O => fun w => (OutOfFuel, w)
  | S fuel' =>
      t <- time_time ;;
      if t - extra_time <? extended_check then
        exited <- poll_exited ;;
        if exited then ret success_detected
        else
          lines <- output_lines ;;
          let s := scan_extended success_keywords lines success_detected in
          if s then ret s
          else
            sleep 200 ;;
            extended_loop fuel' success_keywords extra_time extended_check s
      else ret success_detected
  end.

(** The two phases: from [start_time = time.time()] to the end of the
    extended loop. *)
Definition phases (success_keywords connecting_keywords : list string)
  (timeout grace_period extended_check : Z) : M Flags :=
  start_time <- time_time ;;
  fl <- main_loop (fuel_for timeout) success_keywords connecting_keywords
                  start_time timeout grace_period (false, false) ;;
  if snd fl && negb (fst fl) then
    print MsgConnecting ;;
    extra_time <- time_time ;;
    s <- extended_loop (fuel_for extended_check) success_keywords
                       extra_time extended_check (fst fl) ;;
    ret (s, snd fl)
  else ret fl.

(** [if process.poll() is None: ...], the termination block. *)
Definition stop_process : M unit :=
  exited <- poll_exited ;;
  if exited then ret tt
  else if is_windows env then taskkill
  else
    terminate ;;
    ended <- wait 2000 ;;
    if ended then ret tt else kill.

Definition test_channel_success_keywords : list string :=
  ["Stream #"; "Video:"; "Duration:"].
Definition test_channel_connecting_keywords : list string :=
  ["Opening"; "buffer"; "Cache"; "Connected"; "AVIO"].

(** The body of the [try] block of [test_channel]. *)
Definition test_channel_try (name url : string)
  (timeout grace_period extended_check : Z) : M (string * string * bool) :=
  popen ;;
  thread_start ;;
  fl <- phases test_channel_success_keywords test_channel_connecting_keywords
               timeout grace_period extended_check ;;
  stop_process ;;
  if fst fl then print (MsgSuccess name) ;; ret (name, url, true)
  else if snd fl then print (MsgMaybe name) ;; ret (name, url, false)
  else print (MsgFail name) ;; ret (name, url, false).

Definition test_channel (name url : string)
  (timeout grace_period extended_check : Z) : M (string * string * bool) :=
  print (MsgTesting name) ;;
  try_except
    (test_channel_try name url timeout grace_period extended_check)
    (fun e => print (MsgError name e) ;; ret (name, url, false)).

Definition check_stream_status_success_keywords : list string :=
  ["Stream #"; "Video:"; "Opening"; "AVFormat"; "Duration:"].
Definition check_stream_status_connecting_keywords : list string :=
  ["Opening"; "buffer"; "Cache"; "Connected"; "AVIO"].

(** The body of the [try] block of [check_stream_status]. *)
Definition check_stream_status_try (name url : string)
  (timeout grace_period extended_check : Z) : M bool :=
  popen ;;
  thread_start ;;
  fl <- phases check_stream_status_success_keywords
               check_stream_status_connecting_keywords
               timeout grace_period extended_check ;;
  stop_process ;;
  if fst fl then print (MsgSuccess name) ;; ret true
  else if snd fl then print (MsgMaybe name) ;; ret false
  else print (MsgFail name) ;; ret false.

Definition check_stream_status (name url : string)
  (timeout grace_period extended_check : Z) : M bool :=
  print (MsgTestingUrl name url) ;;
  try_except
    (check_stream_status_try name url timeout grace_period extended_check)
    (fun e => print (MsgError name e) ;; ret false).

End Session.

End Probe.

(* ===================================================================== *)
(** ** The result loop of [main] *)
(* ===================================================================== *)

(** A Python [dict] with string keys: insertion order, one value per key. *)
Definition Dict : Type := list (string * string).

Fixpoint dict_set (d : Dict) (k v : string) : Dict :=
  match d with
  | [] => [(k, v)]
  | (k', v') :: rest =>
      if String.eqb k' k then (k', v) :: rest else (k', v') :: dict_set rest k v
  end.

Record MainState : Type := mkMainState {
  working_channels : Dict;
  not_working_channels : Dict;
  log_file : list (string * string * bool)   (* records of [log_result] *)
}.

Definition main_start : MainState := mkMainState [] [] [].

(** A finished future: what the call of [test_channel] returned or raised. *)
Definition Future : Type := Probe.Res (string * string * bool).

(** [executor.submit(test_channel, name, url, timeout=4, grace_period=1,
    extended_check=2)] for the entries from position [i] on; the session
    of the entry at position [j] runs in the environment [env_of j], and
    the console accepts [console_of j] of its lines. *)
Fixpoint submit_all (env_of : nat -> Probe.Env) (console_of : nat -> option nat)
  (i : nat) (entries : list Entry) : list Future :=
  match entries with
  | [] => []
  | (name, url) :: rest =>
      fst (Probe.test_channel (env_of i) name url 4000 1000 2000
                              (Probe.console_world (console_of i)))
      :: submit_all env_of console_of (S i) rest
  end.

(** One iteration of [for future in as_completed(future_to_channel)]
    after [future.result()] has returned. *)
Definition record_result (st : MainState) (r : string * string * bool) : MainState :=
  let '(name, url, result) := r in
  mkMainState
    (if result then dict_set (working_channels st) name url else working_channels st)
    (if result then not_working_channels st else dict_set (not_working_channels st) name url)
    (log_file st ++ [(name, url, result)]).

(** The loop over the completed futures; [future.result()] raises again
    what the session raised. *)
Fixpoint main_collect (completed : list Future) (st : MainState)
  : Probe.Res MainState :=
  match completed with
  | [] => Probe.Ret st
  | Probe.Ret r :: rest => main_collect rest (record_result st r)
  | Probe.Raise e :: _ => Probe.Raise e
  | Probe.OutOfFuel :: _ => Probe.OutOfFuel
  end.

(** [main], from the lines of the playlist file ([None]: the file does
    not exist).  [as_completed] is the order in which the futures finish. *)
Definition main (env_of : nat -> Probe.Env) (console_of : nat -> option nat)
  (as_completed : list Future -> list Future) (playlist : option (list string))
  : Probe.Res MainState :=
  match playlist with
  | None => Probe.Ret main_start
  | Some lines =>
      let entries := parse_m3u_lines lines in
      main_collect (as_completed (submit_all env_of console_of 0 entries)) main_start
  end.


(* ===================================================================== *)
(** ** Vocabulary of the statements *)
(* ===================================================================== *)

(** Every character of [s] satisfies [p]. *)
Fixpoint all_chars (p : ascii -> bool) (s : string) : bool :=
  match s with
  | EmptyString => true
  | String c r => p c && all_chars p r
  end.

Definition no_comma (s : string) : bool :=
  all_chars (fun c => negb (c =? ",")%char) s.

Definition no_LF (s : string) : bool := all_chars PyStr.is_dot s.

(** A URL line of the playlist, as the parser recognises it. *)
Definition is_url_line (l : string) : bool :=
  PyStr.startswith (PyStr.strip l) "http".

(** A metadata line of the playlist, as the parser recognises it. *)
Definition is_extinf_line (l : string) : bool :=
  PyStr.startswith (PyStr.strip l) "#EXTINF:".

(** The lines the parser looks at; it skips every other line. *)
Definition relevant (l : string) : bool := is_extinf_line l || is_url_line l.

(** A valid metadata/URL pair of lines [m], [u] and the entry [e] it
    stands for: [m] is [#EXTINF:<attributes>,<title>] with a title that
    is not empty, [u] starts with [http]. *)
Definition valid_pair (mu : string * string) (e : Entry) : Prop :=
  exists attrs title,
    PyStr.strip (fst mu) = "#EXTINF:" ++ attrs ++ "," ++ title
    /\ no_comma attrs = true
    /\ title <> EmptyString /\ no_LF title = true
    /\ is_url_line (snd mu) = true
    /\ e = (PyStr.strip title, PyStr.strip (snd mu)).

(** The playlist lines of a sequence of pairs. *)
Definition pair_lines (pairs : list (string * string)) : list string :=
  flat_map (fun mu => [fst mu; snd mu]) pairs.

(** The reading of the specification for the display name: the text
    after the last comma of the line ([None] when it has no comma). *)
Fixpoint after_last_comma (s : string) : option string :=
  match s with
  | EmptyString => None
  | String c r =>
      match after_last_comma r with
      | Some t => Some t
      | None => if (c =? ",")%char then Some r else None
      end
  end.

Import Probe.
Local Open Scope probe_scope.

(** The world [w] with the clock at [t]. *)
Definition with_now (w : World) (t : Z) : World :=
  mkWorld t (spawned w) (sigterm_at w) (killed w) (console w) (prints_left w).

(** The world [w] after SIGTERM has been sent at [t]. *)
Definition with_sigterm (w : World) (t : Z) : World :=
  mkWorld (now w) (spawned w) (Some t) (killed w) (console w) (prints_left w).

(** The world [w] after SIGKILL or taskkill /F has been delivered at [t]. *)
Definition with_killed (w : World) (t : Z) : World :=
  mkWorld (now w) (spawned w) (sigterm_at w) (Some t) (console w) (prints_left w).

(** The world [w] after [print m]. *)
Definition with_msg (w : World) (m : Msg) : World :=
  mkWorld (now w) (spawned w) (sigterm_at w) (killed w) (console w ++ [m])%list
          (option_map Nat.pred (prints_left w)).

(** The console of [w] accepts every line. *)
Definition console_open (w : World) : Prop := prints_left w = None.

(** The contents of [output_lines] at time [t]. *)
Definition visible (env : Env) (t : Z) : list string :=
  map snd (filter (fun p => fst p <=? t) (stderr_lines env)).

(** A line with one of the keywords has arrived by time [t]. *)
Definition seen (keywords : list string) (env : Env) (t : Z) : bool :=
  existsb (PyStr.any_in keywords) (visible env t).

(** The prober has exited by itself by time [t]. *)
Definition exited_by (env : Env) (t : Z) : bool := opt_le (self_exit env) t.

(** The subprocess was created and no signal has been sent to it. *)
Definition untouched (w : World) : Prop :=
  spawned w = true /\ killed w = None /\ sigterm_at w = None.

(** The main loop, entered at time [t] with flags [fl], leaves through
    one of its two [break]s. *)
Definition main_break (env : Env) (success_keywords : list string)
  (start_time grace_period : Z) (fl : Flags) (t : Z) : bool :=
  exited_by env t
  || (fst fl || seen success_keywords env t) && (grace_period <=? t - start_time).

(** The same for the extended loop. *)
Definition extended_break (env : Env) (success_keywords : list string)
  (s : bool) (t : Z) : bool :=
  exited_by env t || (seen success_keywords env t || s).

(** The clock reading, from 0, at which a polling loop bounded by [d]
    milliseconds ends when no [break] is taken: the first multiple of
    200 that is at least [d]. *)
Definition loop_end (d : Z) : Z := 200 * Z.max 0 ((d + 199) / 200).

(** The flags of the main loop after [n] iterations from time [t0] and
    flags [fl]: those of the scan of the last one. *)
Definition flags_after (env : Env) (success_keywords connecting_keywords : list string)
  (t0 : Z) (fl : Flags) (n : nat) : Flags :=
  match n with
  | O => fl
  | S m => scan_main success_keywords connecting_keywords
                     (visible env (t0 + 200 * Z.of_nat m)) fl
  end.

(** How the main loop, entered at [t0] with [fl], is left after [n]
    sleeps with flags [fl']: by its condition, by the [break] on the exit
    of the process, or by the [break] on success after the grace period. *)
Definition main_exit (env : Env) (success_keywords connecting_keywords : list string)
  (start_time timeout grace_period t0 : Z) (fl : Flags) (n : nat) (fl' : Flags) : Prop :=
  let t := t0 + 200 * Z.of_nat n in
  (timeout <= t - start_time
   /\ fl' = flags_after env success_keywords connecting_keywords t0 fl n)
  \/ (t - start_time < timeout /\ exited_by env t = true
      /\ fl' = flags_after env success_keywords connecting_keywords t0 fl n)
  \/ (t - start_time < timeout /\ exited_by env t = false
      /\ fl' = scan_main success_keywords connecting_keywords (visible env t) fl
      /\ fst fl' = true /\ grace_period <= t - start_time).

(** The same for the extended loop: by its condition, on the exit of the
    process, or on success. *)
Definition extended_exit (env : Env) (success_keywords : list string)
  (extra_time extended_check t0 : Z) (s : bool) (n : nat) (s' : bool) : Prop :=
  let t := t0 + 200 * Z.of_nat n in
  (extended_check <= t - extra_time /\ s' = s)
  \/ (t - extra_time < extended_check /\ exited_by env t = true /\ s' = s)
  \/ (t - extra_time < extended_check /\ exited_by env t = false
      /\ seen success_keywords env t || s = true /\ s' = true).

(** At none of the first [n] ticks from [t0] the main loop ends. *)
Definition main_quiet (env : Env) (success_keywords : list string)
  (start_time timeout grace_period t0 : Z) (fl : Flags) (n : nat) : Prop :=
  forall j : nat, (j < n)%nat ->
    t0 + 200 * Z.of_nat j - start_time < timeout
    /\ main_break env success_keywords start_time grace_period fl
                  (t0 + 200 * Z.of_nat j) = false.

Definition extended_quiet (env : Env) (success_keywords : list string)
  (extra_time extended_check t0 : Z) (s : bool) (n : nat) : Prop :=
  forall j : nat, (j < n)%nat ->
    t0 + 200 * Z.of_nat j - extra_time < extended_check
    /\ extended_break env success_keywords s (t0 + 200 * Z.of_nat j) = false.

(** The runs of [phases] from the world [w]: the main loop alone, or the
    main loop, the message and the extended loop. *)
Inductive PhasesRun (env : Env) (success_keywords connecting_keywords : list string)
  (timeout grace_period extended_check : Z) (w : World) : Flags -> World -> Prop :=
| run_main_only (n1 : nat) (fl1 : Flags) :
    main_loop env (fuel_for timeout) success_keywords connecting_keywords
              (now w) timeout grace_period (false, false) w
    = (Ret fl1, with_now w (now w + 200 * Z.of_nat n1)) ->
    main_quiet env success_keywords (now w) timeout grace_period (now w) (false, false) n1 ->
    main_exit env success_keywords connecting_keywords (now w) timeout grace_period
              (now w) (false, false) n1 fl1 ->
    snd fl1 && negb (fst fl1) = false ->
    PhasesRun env success_keywords connecting_keywords timeout grace_period
              extended_check w fl1 (with_now w (now w + 200 * Z.of_nat n1))
| run_extended (n1 n2 : nat) (fl1 : Flags) (s : bool) :
    main_loop env (fuel_for timeout) success_keywords connecting_keywords
              (now w) timeout grace_period (false, false) w
    = (Ret fl1, with_now w (now w + 200 * Z.of_nat n1)) ->
    main_quiet env success_keywords (now w) timeout grace_period (now w) (false, false) n1 ->
    main_exit env success_keywords connecting_keywords (now w) timeout grace_period
              (now w) (false, false) n1 fl1 ->
    snd fl1 = true -> fst fl1 = false ->
    let t1 := now w + 200 * Z.of_nat n1 in
    extended_quiet env success_keywords t1 extended_check t1 false n2 ->
    extended_exit env success_keywords t1 extended_check t1 false n2 s ->
    PhasesRun env success_keywords connecting_keywords timeout grace_period
              extended_check w (s, true)
              (with_now (with_msg w MsgConnecting) (t1 + 200 * Z.of_nat n2)).

(** The world of a session of [test_channel] once the subprocess and
    the reader thread have been started. *)
Definition spawned_world (name : string) : World :=
  mkWorld 0 true None None [MsgTesting name] None.

(** The three branches of the final [if]/[elif]/[else] of a session. *)
Inductive Verdict : Type := Success | Ambiguous | Failure.

Definition verdict (fl : Flags) : Verdict :=
  if fst fl then Success else if snd fl then Ambiguous else Failure.

Definition verdict_msg (v : Verdict) (name : string) : Msg :=
  match v with
  | Success => MsgSuccess name
  | Ambiguous => MsgMaybe name
  | Failure => MsgFail name
  end.

(** No library call raises. *)
Definition no_fault : Op -> bool := fun _ => false.

(** *** Sessions used as examples

    All run on a POSIX platform with no call raising, unless said
    otherwise; taskkill succeeds, and a process that has been sent
    SIGKILL is gone 20 ms later. *)

(** A success line at 0.3 s; the prober runs on and obeys SIGTERM in 50 ms. *)
Definition env_success_at_300 : Env :=
  mkEnv false no_fault [(300, "  Stream #0:0: Video: h264")] None (Some 50) true 20.

(** The same line at 0.3 s, and the prober exits by itself at 0.5 s. *)
Definition env_success_then_exit : Env :=
  mkEnv false no_fault [(300, "  Stream #0:0: Video: h264")] (Some 500) (Some 50) true 20.

(** One line, with a success and a connecting keyword, at 0.1 s; the
    prober exits right after it, at 0.15 s. *)
Definition env_line_then_exit : Env :=
  mkEnv false no_fault [(100, "Opening 'http://a/1': Stream #0:0: Video: h264")]
        (Some 150) (Some 50) true 20.

(** A connecting line at 0.1 s and nothing else; the prober never exits
    by itself and ignores SIGTERM, so that it is sent SIGKILL. *)
Definition env_opening : Env :=
  mkEnv false no_fault [(100, "Opening 'http://a/1' for reading")] None None true 20.

(** The connecting line arrives at 3.9 s only. *)
Definition env_late_opening : Env :=
  mkEnv false no_fault [(3900, "Opening 'http://a/1' for reading")] None None true 20.

(** No output at all; the prober never exits by itself. *)
Definition env_silent : Env := mkEnv false no_fault [] None None true 20.

(** [Thread.start] raises; the prober, once started, never exits by
    itself. *)
Definition env_thread_fault : Env :=
  mkEnv false (fun op => match op with OpThreadStart => true | _ => false end)
        [(100, "Opening 'http://a/1' for reading")] None None true 20.

(** On Windows, with taskkill missing. *)
Definition env_taskkill_fault : Env :=
  mkEnv true (fun op => match op with OpTaskkill => true | _ => false end)
        [] None None true 20.

(** On Windows, with a taskkill that returns a status other than 0
    (access denied); the prober writes nothing and never exits by
    itself. *)
Definition env_taskkill_refused : Env :=
  mkEnv true no_fault [] None None false 20.

(** [Popen] raises: the prober is not installed. *)
Definition env_spawn_fault : Env :=
  mkEnv false (fun op => match op with OpPopen => true | _ => false end)
        [] None None true 20.

(** The sessions of a run of [main] on two entries: the first cannot
    start the prober, the second sees a success line. *)
Definition env_of_example (i : nat) : Env :=
  match i with
  | O => env_spawn_fault
  | _ => env_success_at_300
  end.

(** The name and the URL of a record of the log. *)
Definition record_entry (r : string * string * bool) : Entry :=
  (fst (fst r), snd (fst r)).

(** The runs of the termination block that return, from a world [w3]
    in which no signal has been sent: the process has exited already;
    taskkill /F has been delivered; taskkill has returned another status
    than 0; the process has ended within 2 s of SIGTERM, at [t]; or
    SIGKILL has been sent 2 s after SIGTERM, and nothing waits for its
    effect. *)
Inductive Stopped (env : Env) (w3 : World) : World -> Prop :=
| stopped_exited :
    running env w3 = false ->
    Stopped env w3 w3
| stopped_taskkill :
    running env w3 = true -> is_windows env = true -> taskkill_ok env = true ->
    Stopped env w3 (with_killed w3 (now w3))
| stopped_taskkill_failed :
    running env w3 = true -> is_windows env = true -> taskkill_ok env = false ->
    Stopped env w3 w3
| stopped_sigterm (t : Z) :
    running env w3 = true -> is_windows env = false ->
    now w3 <= t <= now w3 + 2000 ->
    running env (with_now (with_sigterm w3 (now w3)) t) = false ->
    Stopped env w3 (with_now (with_sigterm w3 (now w3)) t)
| stopped_sigkill :
    running env w3 = true -> is_windows env = false ->
    running env (with_now (with_sigterm w3 (now w3)) (now w3 + 2000)) = true ->
    Stopped env w3
      (with_killed (with_now (with_sigterm w3 (now w3)) (now w3 + 2000))
                   (now w3 + 2000)).

(** The runs of a session of [test_channel] from [initial_world]: the
    value it returns and the world it leaves.  Either [Popen] raises, or
    [Thread.start] raises, or the phases run and then the termination
    block raises or returns, the verdict following in the last case. *)
Inductive SessionRun (env : Env) (name url : string)
  (timeout grace_period extended_check : Z) : string * string * bool -> World -> Prop :=
| session_no_process :
    raises env OpPopen = true ->
    SessionRun env name url timeout grace_period extended_check (name, url, false)
      (with_msg (with_msg initial_world (MsgTesting name))
                (MsgError name (PyException OpPopen)))
| session_no_reader :
    raises env OpPopen = false -> raises env OpThreadStart = true ->
    SessionRun env name url timeout grace_period extended_check (name, url, false)
      (with_msg (spawned_world name) (MsgError name (PyException OpThreadStart)))
| session_stop_raises (fl : Flags) (w3 w4 : World) (op : Op) :
    raises env OpPopen = false -> raises env OpThreadStart = false ->
    phases env test_channel_success_keywords test_channel_connecting_keywords
           timeout grace_period extended_check (spawned_world name) = (Ret fl, w3) ->
    PhasesRun env test_channel_success_keywords test_channel_connecting_keywords
              timeout grace_period extended_check (spawned_world name) fl w3 ->
    stop_process env w3 = (Raise (PyException op), w4) ->
    raises env op = true -> running env w4 = true ->
    SessionRun env name url timeout grace_period extended_check (name, url, false)
      (with_msg w4 (MsgError name (PyException op)))
| session_verdict (fl : Flags) (w3 w4 : World) :
    raises env OpPopen = false -> raises env OpThreadStart = false ->
    phases env test_channel_success_keywords test_channel_connecting_keywords
           timeout grace_period extended_check (spawned_world name) = (Ret fl, w3) ->
    PhasesRun env test_channel_success_keywords test_channel_connecting_keywords
              timeout grace_period extended_check (spawned_world name) fl w3 ->
    stop_process env w3 = (Ret tt, w4) ->
    Stopped env w3 w4 ->
    console w4 = console w3 ->
    now w3 <= now w4 <= now w3 + 2000 ->
    SessionRun env name url timeout grace_period extended_check (name, url, fst fl)
      (with_msg w4 (verdict_msg (verdict fl) name)).

(** Turns the boolean comparisons of the context into propositions. *)
Ltac leb_to_prop :=
  repeat match goal with
    | H : (_ <=? _) = true |- _ => apply Z.leb_le in H
    | H : (_ <=? _) = false |- _ => apply Z.leb_gt in H
    | H : (_ <? _) = true |- _ => apply Z.ltb_lt in H
    | H : (_ <? _) = false |- _ => apply Z.ltb_ge in H
    end.

Ltac case_if :=
  match goal with
  | |- context [if ?c then _ else _] => destruct c eqn:?
  end.

(* ===================================================================== *)
(** ** Vocabulary of the further statements *)
(* ===================================================================== *)

(** A string of whitespace only. *)
Definition all_space (s : string) : bool := all_chars PyStr.isspace s.

(** The line [l'] is the line [l] with whitespace added around it. *)
Definition padded (l l' : string) : Prop :=
  exists a b : string,
    all_space a = true /\ all_space b = true /\ l' = a ++ l ++ b.

(** The value of [current_name] after the loop of [parse_m3u_lines] has
    read [lines]. *)
Definition current_name_after (lines : list string) : string :=
  fst (parse_loop ("Unknown", []) lines).

(** [s] has a comma followed by a character that [.] matches: what the
    regular expression [,(.+)] needs to match somewhere in [s]. *)
Definition comma_then_dot (s : string) : Prop :=
  exists (pre : string) (c : ascii) (rest : string),
    s = pre ++ "," ++ String c rest /\ PyStr.is_dot c = true.

(** [d[k]] for a key that may be missing. *)
Fixpoint dict_get (d : Dict) (k : string) : option string :=
  match d with
  | [] => None
  | (k', v) :: rest => if String.eqb k' k then Some v else dict_get rest k
  end.

(** [d.keys()] *)
Definition dict_keys (d : Dict) : list string := map fst d.

(** The URL of the last record of [records] that has the name [k] and
    the result [b]. *)
Fixpoint last_url (records : list (string * string * bool)) (k : string) (b : bool)
  : option string :=
  match records with
  | [] => None
  | (name, url, result) :: rest =>
      match last_url rest k b with
      | Some u => Some u
      | None => if String.eqb name k && Bool.eqb result b then Some url else None
      end
  end.

(** What the loop of [main] keeps true of its state: the keys of each
    dictionary are distinct, and each dictionary maps a name to the URL
    of the last record of the log with that name and its result. *)
Definition main_invariant (st : MainState) : Prop :=
  NoDup (dict_keys (working_channels st))
  /\ NoDup (dict_keys (not_working_channels st))
  /\ forall k : string,
       dict_get (working_channels st) k = last_url (log_file st) k true
       /\ dict_get (not_working_channels st) k = last_url (log_file st) k false.

(** The consoles of a run of [main] in which the first session cannot
    print its first line, and every other session can print. *)
Definition console_of_example (i : nat) : option nat :=
  match i with
  | O => Some 0%nat
  | _ => None
  end.

(** The playlist of the example run of [main]. *)
Definition playlist_example : list string :=
  ["#EXTINF:-1,One"; "http://a/1"; "#EXTINF:-1,Two"; "http://a/2"].

(** The world of a session of [check_stream_status] once the subprocess
    and the reader thread have been started. *)
Definition spawned_world_url (name url : string) : World :=
  mkWorld 0 true None None [MsgTestingUrl name url] None.

(* ===================================================================== *)
(** ** Facts about the string operations *)
(* ===================================================================== *)

Section StringFacts.

Lemma prefix_app (p s : string) : String.prefix p (p ++ s) = true.
Proof.
  induction p as [|c p IH]; cbn [String.prefix String.append].
  - destruct s; reflexivity.
  - destruct (ascii_dec c c) as [_|ne]; [exact IH | now elim ne].
Qed.

Lemma startswith_app (p s : string) : PyStr.startswith (p ++ s) p = true.
Proof. apply prefix_app. Qed.

(** A line cannot start with both sentinels. *)
Lemma url_not_extinf (l : string) :
  is_url_line l = true -> is_extinf_line l = false.
Proof.
  unfold is_url_line, is_extinf_line, PyStr.startswith.
  destruct (PyStr.strip l) as [|c r]; cbn [String.prefix]; [discriminate|].
  destruct (ascii_dec "h" c) as [<-|ne]; [intros _ | discriminate].
  destruct (ascii_dec "#" "h") as [e|_]; [discriminate e | reflexivity].
Qed.

Lemma dot_run_no_LF (s : string) : no_LF s = true -> PyStr.dot_run s = s.
Proof.
  unfold no_LF.
  induction s as [|c r IH]; simpl; [reflexivity|].
  intros H. apply andb_true_iff in H as [Hc Hr].
  rewrite Hc, (IH Hr). reflexivity.
Qed.

(** The search skips a comma-free prefix. *)
Lemma search_skip (a s : string) :
  no_comma a = true ->
  PyStr.search_comma_group (a ++ s) = PyStr.search_comma_group s.
Proof.
  unfold no_comma.
  induction a as [|c a IH]; simpl; [reflexivity|].
  intros H. apply andb_true_iff in H as [Hc Ha].
  apply negb_true_iff in Hc. rewrite Hc. exact (IH Ha).
Qed.

(** The leftmost comma that has text after it starts the match, and
    the group runs to the end of the line. *)
Lemma search_first_comma (a t : string) :
  no_comma a = true -> t <> EmptyString -> no_LF t = true ->
  PyStr.search_comma_group (a ++ "," ++ t) = Some t.
Proof.
  intros Ha Ht Hlf. rewrite (search_skip _ _ Ha). simpl.
  rewrite (dot_run_no_LF _ Hlf).
  destruct t; [now elim Ht | reflexivity].
Qed.

(** Without a comma there is no match. *)
Lemma search_no_comma (s : string) :
  no_comma s = true -> PyStr.search_comma_group s = None.
Proof.
  unfold no_comma.
  induction s as [|c s IH]; simpl; [reflexivity|].
  intros H. apply andb_true_iff in H as [Hc Hs].
  apply negb_true_iff in Hc. rewrite Hc. exact (IH Hs).
Qed.

End StringFacts.

(* ===================================================================== *)
(** ** The playlist parser: statements *)
(* ===================================================================== *)

Section ParserFacts.

Lemma parse_loop_cons (st : string * list Entry) (l : string) (ls : list string) :
  parse_loop st (l :: ls) = parse_loop (parse_step st l) ls.
Proof. reflexivity. Qed.

Lemma parse_loop_app (st : string * list Entry) (l1 l2 : list string) :
  parse_loop st (l1 ++ l2)%list = parse_loop (parse_loop st l1) l2.
Proof. apply fold_left_app. Qed.

(** A line that is neither a metadata line nor a URL line is skipped. *)
Lemma parse_step_skip (st : string * list Entry) (l : string) :
  relevant l = false -> parse_step st l = st.
Proof.
  unfold relevant, is_extinf_line, is_url_line, parse_step.
  intros H. apply orb_false_iff in H as [H1 H2].
  destruct st as [n es]. now rewrite H1, H2.
Qed.

Lemma parse_loop_filter (lines : list string) (st : string * list Entry) :
  parse_loop st (filter relevant lines) = parse_loop st lines.
Proof.
  revert st. induction lines as [|l lines IH]; intros st; simpl; [reflexivity|].
  destruct (relevant l) eqn:E; simpl.
  - apply IH.
  - rewrite (parse_step_skip _ _ E). apply IH.
Qed.

Lemma parse_step_url (n : string) (es : list Entry) (u : string) :
  is_url_line u = true ->
  parse_step (n, es) u = (n, (es ++ [(n, PyStr.strip u)])%list).
Proof.
  intros H. unfold parse_step.
  pose proof (url_not_extinf _ H) as H'.
  unfold is_url_line in H. unfold is_extinf_line in H'.
  now rewrite H', H.
Qed.

(** Consecutive URL lines all take the current name, which stays. *)
Lemma parse_loop_urls (us : list string) (n : string) (es : list Entry) :
  Forall (fun u => is_url_line u = true) us ->
  parse_loop (n, es) us = (n, (es ++ map (fun u => (n, PyStr.strip u)) us)%list).
Proof.
  intros H. revert es.
  induction H as [|u us Hu _ IH]; intros es.
  - simpl. now rewrite app_nil_r.
  - rewrite parse_loop_cons, (parse_step_url _ _ _ Hu), IH, <- app_assoc.
    reflexivity.
Qed.

Lemma parse_step_valid_meta (n : string) (es : list Entry) (m attrs title : string) :
  PyStr.strip m = "#EXTINF:" ++ attrs ++ "," ++ title ->
  no_comma attrs = true -> title <> EmptyString -> no_LF title = true ->
  parse_step (n, es) m = (PyStr.strip title, es).
Proof.
  intros Hm Ha Ht Hlf. unfold parse_step. rewrite Hm.
  rewrite startswith_app.
  change ("#EXTINF:" ++ attrs ++ "," ++ title)
    with (String "#" (String "E" (String "X" (String "T" (String "I"
           (String "N" (String "F" (String ":" (attrs ++ "," ++ title))))))))).
  cbn [PyStr.search_comma_group Ascii.eqb Bool.eqb].
  now rewrite (search_first_comma _ _ Ha Ht Hlf).
Qed.

Lemma parse_loop_pairs (pairs : list (string * string)) (entries : list Entry) :
  Forall2 valid_pair pairs entries ->
  forall n es,
    snd (parse_loop (n, es) (pair_lines pairs)) = (es ++ entries)%list.
Proof.
  induction 1 as [|mu e pairs entries Hv _ IH]; intros n es.
  - simpl. now rewrite app_nil_r.
  - destruct Hv as (attrs & title & Hm & Ha & Ht & Hlf & Hu & ->).
    change (pair_lines (mu :: pairs))
      with (fst mu :: snd mu :: pair_lines pairs).
    rewrite !parse_loop_cons.
    rewrite (parse_step_valid_meta _ _ _ _ _ Hm Ha Ht Hlf).
    rewrite (parse_step_url _ _ _ Hu), IH, <- app_assoc.
    reflexivity.
Qed.

End ParserFacts.

Section ParserStatements.

(** C7.  A playlist whose metadata and URL lines are [N] valid
    [#EXTINF]/URL pairs (after any number of bare URL lines, all other
    lines being skipped) parses to exactly the [N] entries of the pairs,
    in file order, each with the name of its metadata line; the bare URL
    lines in front, which no metadata line precedes, are named
    "Unknown". *)
Theorem parse_m3u_lines_valid_pairs
  (lines us : list string) (pairs : list (string * string)) (entries : list Entry) :
  filter relevant lines = (us ++ pair_lines pairs)%list ->
  Forall (fun u => is_url_line u = true) us ->
  Forall2 valid_pair pairs entries ->
  parse_m3u_lines lines
  = (map (fun u => ("Unknown", PyStr.strip u)) us ++ entries)%list
  /\ List.length entries = List.length pairs.
Proof.
  intros Hl Hus Hp. split.
  - unfold parse_m3u_lines.
    rewrite <- parse_loop_filter, Hl, parse_loop_app, (parse_loop_urls _ _ _ Hus).
    apply (parse_loop_pairs _ _ Hp).
  - symmetry. exact (Forall2_length Hp).
Qed.

Lemma parse_m3u_lines_valid_pairs_witness :
  parse_m3u_lines
    ["#EXTM3U" ++ LF; "http://a/0" ++ LF; LF;
     "#EXTINF:-1 tvg-id=x,News, Live " ++ LF; "  http://a/1" ++ LF;
     "#EXTINF:0,Two"; "https://a/2"]
  = [("Unknown", "http://a/0"); ("News, Live", "http://a/1"); ("Two", "https://a/2")]
  /\ List.length [("News, Live", "http://a/1"); ("Two", "https://a/2")] = 2%nat.
Proof.
  apply (parse_m3u_lines_valid_pairs _
           ["http://a/0" ++ LF]
           [("#EXTINF:-1 tvg-id=x,News, Live " ++ LF, "  http://a/1" ++ LF);
            ("#EXTINF:0,Two", "https://a/2")]
           [("News, Live", "http://a/1"); ("Two", "https://a/2")]).
  - reflexivity.
  - repeat constructor.
  - constructor; [|constructor; [|constructor]].
    + exists "-1 tvg-id=x", "News, Live".
      repeat split; try reflexivity. discriminate.
    + exists "0", "Two".
      repeat split; try reflexivity. discriminate.
Defined.

(** C8 (as the code has it).  For a metadata line that, stripped, is
    [#EXTINF:], attributes without a comma, a comma and a text that is
    not empty, the name bound to the following URL line is that text,
    the text after the FIRST comma of the line up to its end, stripped. *)
Theorem extinf_name_after_first_comma
  (n : string) (es : list Entry) (m u attrs title : string) :
  PyStr.strip m = "#EXTINF:" ++ attrs ++ "," ++ title ->
  no_comma attrs = true -> title <> EmptyString -> no_LF title = true ->
  is_url_line u = true ->
  parse_loop (n, es) [m; u]
  = (PyStr.strip title, (es ++ [(PyStr.strip title, PyStr.strip u)])%list).
Proof.
  intros Hm Ha Ht Hlf Hu.
  rewrite !parse_loop_cons, (parse_step_valid_meta _ _ _ _ _ Hm Ha Ht Hlf).
  rewrite (parse_step_url _ _ _ Hu). reflexivity.
Qed.

Lemma extinf_name_after_first_comma_witness :
  parse_loop ("Unknown", []) ["#EXTINF:-1 tvg-id=x,News, Live " ++ LF; "http://a/1" ++ LF]
  = ("News, Live", [("News, Live", "http://a/1")]).
Proof.
  apply (extinf_name_after_first_comma "Unknown" []
           ("#EXTINF:-1 tvg-id=x,News, Live " ++ LF) ("http://a/1" ++ LF)
           "-1 tvg-id=x" "News, Live");
    try reflexivity.
  discriminate.
Defined.

(** C8, as stated, fails: on the line [#EXTINF:-1,News, Live] the text
    after the last comma is " Live", but the URL line is named
    "News, Live". *)
Lemma name_after_last_comma_fails :
  let m := "#EXTINF:-1,News, Live" in
  let u := "http://a/1" in
  is_extinf_line m = true
  /\ no_comma (PyStr.strip m) = false
  /\ after_last_comma (PyStr.strip m) = Some " Live"
  /\ parse_m3u_lines [m; u] = [("News, Live", u)]
  /\ parse_m3u_lines [m; u] <> [(PyStr.strip " Live", u)].
Proof. repeat split; try reflexivity. discriminate. Qed.

(** C10.  A [#EXTINF:] line without a comma leaves the state of the
    parser as it is, the current name included; the URL lines that
    follow, however many, all take the current name, which is never
    cleared: it is the name parsed last, with or without such a line in
    between. *)
Theorem current_name_persists (pre us : list string) (m : string) :
  is_extinf_line m = true ->
  no_comma (PyStr.strip m) = true ->
  Forall (fun u => is_url_line u = true) us ->
  let st := parse_loop ("Unknown", []) pre in
  let named := map (fun u => (fst st, PyStr.strip u)) us in
  parse_step st m = st
  /\ parse_loop ("Unknown", []) (pre ++ m :: us)%list = (fst st, (snd st ++ named)%list)
  /\ parse_loop ("Unknown", []) (pre ++ us)%list = (fst st, (snd st ++ named)%list).
Proof.
  intros Hm Hc Hus st named.
  assert (Hstep : parse_step st m = st).
  { unfold parse_step. destruct st as [n es].
    unfold is_extinf_line in Hm. rewrite Hm, (search_no_comma _ Hc). reflexivity. }
  split; [exact Hstep|].
  rewrite !parse_loop_app, parse_loop_cons. fold st. rewrite Hstep.
  destruct st as [n es]. rewrite (parse_loop_urls _ _ _ Hus). now split.
Qed.

Lemma current_name_persists_witness :
  let pre := ["#EXTINF:-1,One"; "http://a/1"] in
  let st := parse_loop ("Unknown", []) pre in
  let named := [("One", "http://a/2"); ("One", "http://a/3")] in
  parse_step st "#EXTINF:-1" = st
  /\ parse_loop ("Unknown", [])
       (pre ++ "#EXTINF:-1" :: ["http://a/2"; ("http://a/3" ++ LF)%string])%list
     = ("One", (snd st ++ named)%list)
  /\ parse_loop ("Unknown", []) (pre ++ ["http://a/2"; ("http://a/3" ++ LF)%string])%list
     = ("One", (snd st ++ named)%list).
Proof.
  apply (current_name_persists ["#EXTINF:-1,One"; "http://a/1"]
           ["http://a/2"; "http://a/3" ++ LF] "#EXTINF:-1").
  - reflexivity.
  - reflexivity.
  - repeat constructor.
Defined.

End ParserStatements.

(* ===================================================================== *)
(** ** Probe sessions: the polling loops *)
(* ===================================================================== *)

Section LoopFacts.

Variable env : Env.
Variables success_keywords connecting_keywords : list string.

Lemma scan_main_flags (lines : list string) (fl : Flags) :
  scan_main success_keywords connecting_keywords lines fl
  = (fst fl || existsb (PyStr.any_in success_keywords) lines,
     snd fl || existsb (PyStr.any_in connecting_keywords) lines).
Proof.
  unfold scan_main. revert fl.
  induction lines as [|l lines IH]; intros [s c]; cbn [fold_left existsb fst snd].
  - now rewrite !orb_false_r.
  - rewrite IH.
    destruct (PyStr.any_in success_keywords l), (PyStr.any_in connecting_keywords l);
      cbn [fst snd orb]; rewrite ?orb_true_r, ?orb_false_r; reflexivity.
Qed.

Lemma scan_extended_flags (lines : list string) (s : bool) :
  scan_extended success_keywords lines s
  = existsb (PyStr.any_in success_keywords) lines || s.
Proof.
  induction lines as [|l lines IH]; cbn [scan_extended existsb]; [reflexivity|].
  destruct (PyStr.any_in success_keywords l); [reflexivity | exact IH].
Qed.

(** [output_lines] only grows. *)
Lemma visible_mono (t1 t2 : Z) (l : string) :
  t1 <= t2 -> In l (visible env t1) -> In l (visible env t2).
Proof.
  unfold visible. intros Ht Hin.
  apply in_map_iff in Hin as (p & <- & Hp).
  apply filter_In in Hp as [Hp Hle].
  apply in_map, filter_In. split; [exact Hp|].
  apply Z.leb_le in Hle. apply Z.leb_le. lia.
Qed.

Lemma seen_mono (kw : list string) (t1 t2 : Z) :
  t1 <= t2 -> seen kw env t1 = true -> seen kw env t2 = true.
Proof.
  unfold seen. intros Ht H.
  apply existsb_exists in H as (l & Hin & Hl).
  apply existsb_exists. exists l. split; [|exact Hl].
  exact (visible_mono _ _ _ Ht Hin).
Qed.

Lemma seen_or (kw : list string) (t1 t2 : Z) :
  t1 <= t2 -> seen kw env t1 || seen kw env t2 = seen kw env t2.
Proof.
  intros Ht. destruct (seen kw env t1) eqn:E; [|reflexivity].
  now rewrite (seen_mono _ _ _ Ht E).
Qed.

(** Scanning again later subsumes an earlier scan. *)
Lemma scan_main_again (t1 t2 : Z) (fl : Flags) :
  t1 <= t2 ->
  scan_main success_keywords connecting_keywords (visible env t2)
    (scan_main success_keywords connecting_keywords (visible env t1) fl)
  = scan_main success_keywords connecting_keywords (visible env t2) fl.
Proof.
  intros Ht. rewrite !scan_main_flags. cbn [fst snd].
  fold (seen success_keywords env t1) (seen success_keywords env t2)
       (seen connecting_keywords env t1) (seen connecting_keywords env t2).
  rewrite <- !orb_assoc, !(seen_or _ _ _ Ht). reflexivity.
Qed.

Lemma main_break_again (start_time grace_period t1 t2 : Z) (fl : Flags) :
  t1 <= t2 ->
  main_break env success_keywords start_time grace_period
    (scan_main success_keywords connecting_keywords (visible env t1) fl) t2
  = main_break env success_keywords start_time grace_period fl t2.
Proof.
  intros Ht. unfold main_break. rewrite scan_main_flags. cbn [fst].
  fold (seen success_keywords env t1).
  now rewrite <- orb_assoc, (seen_or _ _ _ Ht).
Qed.

Lemma running_untouched (w : World) :
  untouched w -> running env w = negb (exited_by env (now w)).
Proof.
  intros (Hs & Hk & Ht).
  unfold running, dead_by, sigterm_death, kill_death, exited_by.
  rewrite Hs, Hk, Ht. cbn [opt_le orb andb]. now rewrite orb_false_r.
Qed.

Lemma untouched_with_now (w : World) (t : Z) :
  untouched w -> untouched (with_now w t).
Proof. intros H. exact H. Qed.

Lemma with_now_with_now (w : World) (t1 t2 : Z) :
  with_now (with_now w t1) t2 = with_now w t2.
Proof. reflexivity. Qed.

Lemma with_now_same (w : World) : with_now w (now w) = w.
Proof. now destruct w. Qed.

(** One unfolding of the main loop. *)
Lemma main_loop_S (fuel : nat) (start_time timeout grace_period : Z)
  (fl : Flags) (w : World) :
  main_loop env (S fuel) success_keywords connecting_keywords
            start_time timeout grace_period fl w
  = if now w - start_time <? timeout then
      if negb (running env w) then (Ret fl, w)
      else
        let fl' := scan_main success_keywords connecting_keywords
                             (visible env (now w)) fl in
        if fst fl' && (grace_period <=? now w - start_time) then (Ret fl', w)
        else main_loop env fuel success_keywords connecting_keywords
                       start_time timeout grace_period fl'
                       (with_now w (now w + 200))
    else (Ret fl, w).
Proof.
  cbn [main_loop]. unfold bind, time_time, poll_exited, output_lines, sleep, ret.
  fold (visible env (now w)).
  destruct (now w - start_time <? timeout); [|reflexivity].
  destruct (negb (running env w)); [reflexivity|].
  cbv zeta.
  destruct (fst _ && _); reflexivity.
Qed.

(** One unfolding of the extended loop. *)
Lemma extended_loop_S (fuel : nat) (extra_time extended_check : Z)
  (s : bool) (w : World) :
  extended_loop env (S fuel) success_keywords extra_time extended_check s w
  = if now w - extra_time <? extended_check then
      if negb (running env w) then (Ret s, w)
      else
        let s' := scan_extended success_keywords (visible env (now w)) s in
        if s' then (Ret s', w)
        else extended_loop env fuel success_keywords extra_time extended_check s'
                           (with_now w (now w + 200))
    else (Ret s, w).
Proof.
  cbn [extended_loop]. unfold bind, time_time, poll_exited, output_lines, sleep, ret.
  fold (visible env (now w)).
  destruct (now w - extra_time <? extended_check); [|reflexivity].
  destruct (negb (running env w)); [reflexivity|].
  cbv zeta.
  destruct (scan_extended _ _ _); reflexivity.
Qed.

Section MainLoop.

Variables start_time timeout grace_period : Z.

(** With a tick of fuel for every 200 ms that are left, the main loop
    returns; it sleeps [n] times, at none of these ticks a [break]
    applies, and it is left in one of the three ways. *)
Lemma main_loop_run (fuel : nat) : forall (w : World) (fl : Flags),
  untouched w ->
  timeout - (now w - start_time) <= 200 * Z.of_nat fuel ->
  exists (n : nat) (fl' : Flags),
    main_loop env (S fuel) success_keywords connecting_keywords
              start_time timeout grace_period fl w
    = (Ret fl', with_now w (now w + 200 * Z.of_nat n))
    /\ (forall j : nat, (j < n)%nat ->
          now w + 200 * Z.of_nat j - start_time < timeout
          /\ main_break env success_keywords start_time grace_period fl
                        (now w + 200 * Z.of_nat j) = false)
    /\ main_exit env success_keywords connecting_keywords
                 start_time timeout grace_period (now w) fl n fl'.
Proof.
  induction fuel as [|fuel IH]; intros w fl Hu Hfuel; rewrite main_loop_S;
    rewrite (running_untouched _ Hu), negb_involutive;
    (destruct (now w - start_time <? timeout) eqn:Hc;
     [apply Z.ltb_lt in Hc | apply Z.ltb_ge in Hc];
     [destruct (exited_by env (now w)) eqn:Hx;
      [|cbv zeta;
        destruct (fst (scan_main success_keywords connecting_keywords
                                 (visible env (now w)) fl)
                  && (grace_period <=? now w - start_time)) eqn:Hb]|]).
  all: try (exists 0%nat; eexists; rewrite Z.mul_0_r, Z.add_0_r, with_now_same;
            split; [reflexivity|]; split; [intros j Hj; lia|];
            unfold main_exit; cbv zeta; rewrite Z.mul_0_r, Z.add_0_r;
            first [ left; split; [lia | reflexivity]
                  | right; left; repeat split; [lia | assumption]
                  | right; right;
                    apply andb_true_iff in Hb as [Hb1 Hb2]; apply Z.leb_le in Hb2;
                    repeat split; [lia | assumption | assumption | lia] ]).
  - (* no fuel left for a sleep: the condition must have failed *)
    change (Z.of_nat 0) with 0 in Hfuel. lia.
  - (* one sleep, then the induction hypothesis *)
    set (fl1 := scan_main success_keywords connecting_keywords
                          (visible env (now w)) fl) in *.
    destruct (IH (with_now w (now w + 200)) fl1 (untouched_with_now _ _ Hu))
      as (n & fl' & Hrun & Hticks & Hexit).
    { cbn [now with_now]. lia. }
    cbn [now with_now] in Hrun, Hticks, Hexit.
    assert (Hnobreak : main_break env success_keywords start_time grace_period
                                  fl (now w) = false).
    { unfold main_break. rewrite Hx. cbn [orb].
      unfold fl1 in Hb. rewrite scan_main_flags in Hb. exact Hb. }
    exists (S n), fl'. split; [|split].
    + rewrite Hrun, with_now_with_now. f_equal. f_equal. lia.
    + intros [|j] Hj.
      * rewrite Z.mul_0_r, Z.add_0_r. split; [lia | exact Hnobreak].
      * destruct (Hticks j ltac:(lia)) as [Ht Hbr].
        replace (now w + 200 * Z.of_nat (S j)) with (now w + 200 + 200 * Z.of_nat j) by lia.
        split; [exact Ht|].
        unfold fl1 in Hbr. rewrite main_break_again in Hbr by lia. exact Hbr.
    + unfold main_exit in *. cbv zeta in *.
      replace (now w + 200 * Z.of_nat (S n)) with (now w + 200 + 200 * Z.of_nat n) by lia.
      assert (Hfl : flags_after env success_keywords connecting_keywords
                                (now w + 200) fl1 n
                    = flags_after env success_keywords connecting_keywords
                                  (now w) fl (S n)).
      { destruct n as [|m]; cbn [flags_after].
        - unfold fl1. now rewrite Z.mul_0_r, Z.add_0_r.
        - unfold fl1. rewrite scan_main_again by lia. f_equal. f_equal. lia. }
      rewrite Hfl in Hexit.
      destruct Hexit as [(H1 & H2) | [(H1 & H2 & H3) | (H1 & H2 & H3 & H4 & H5)]].
      * left. now split.
      * right; left. now repeat split.
      * right; right. repeat split; try assumption.
        unfold fl1 in H3. rewrite scan_main_again in H3 by lia. exact H3.
Qed.

End MainLoop.

Section ExtendedLoop.

Variables extra_time extended_check : Z.

(** The extended loop returns as well, in one of its three ways. *)
Lemma extended_loop_run (fuel : nat) : forall (w : World) (s : bool),
  untouched w ->
  extended_check - (now w - extra_time) <= 200 * Z.of_nat fuel ->
  exists (n : nat) (s' : bool),
    extended_loop env (S fuel) success_keywords extra_time extended_check s w
    = (Ret s', with_now w (now w + 200 * Z.of_nat n))
    /\ (forall j : nat, (j < n)%nat ->
          now w + 200 * Z.of_nat j - extra_time < extended_check
          /\ extended_break env success_keywords s (now w + 200 * Z.of_nat j) = false)
    /\ extended_exit env success_keywords extra_time extended_check (now w) s n s'.
Proof.
  induction fuel as [|fuel IH]; intros w s Hu Hfuel; rewrite extended_loop_S;
    rewrite (running_untouched _ Hu), negb_involutive;
    (destruct (now w - extra_time <? extended_check) eqn:Hc;
     [apply Z.ltb_lt in Hc | apply Z.ltb_ge in Hc];
     [destruct (exited_by env (now w)) eqn:Hx;
      [|cbv zeta; rewrite scan_extended_flags;
        fold (seen success_keywords env (now w));
        destruct (seen success_keywords env (now w) || s) eqn:Hb]|]).
  all: try (exists 0%nat; eexists; rewrite Z.mul_0_r, Z.add_0_r, with_now_same;
            split; [reflexivity|]; split; [intros j Hj; lia|];
            unfold extended_exit; cbv zeta; rewrite Z.mul_0_r, Z.add_0_r;
            first [ left; split; [lia | reflexivity]
                  | right; left; repeat split; [lia | assumption]
                  | right; right; repeat split; [lia | assumption | assumption] ]).
  - change (Z.of_nat 0) with 0 in Hfuel. lia.
  - apply orb_false_iff in Hb as [Hseen ->].
    destruct (IH (with_now w (now w + 200)) false (untouched_with_now _ _ Hu))
      as (n & s' & Hrun & Hticks & Hexit).
    { cbn [now with_now]. lia. }
    cbn [now with_now] in Hrun, Hticks, Hexit.
    exists (S n), s'. split; [|split].
    + rewrite Hrun, with_now_with_now. f_equal. f_equal. lia.
    + intros [|j] Hj.
      * rewrite Z.mul_0_r, Z.add_0_r. split; [lia|].
        unfold extended_break. now rewrite Hx, Hseen.
      * destruct (Hticks j ltac:(lia)) as [Ht Hbr].
        replace (now w + 200 * Z.of_nat (S j)) with (now w + 200 + 200 * Z.of_nat j) by lia.
        now split.
    + unfold extended_exit in *. cbv zeta in *.
      replace (now w + 200 * Z.of_nat (S n)) with (now w + 200 + 200 * Z.of_nat n) by lia.
      exact Hexit.
Qed.

End ExtendedLoop.

(** The fuel of [phases] is enough for a loop that starts at elapsed
    time 0. *)
Lemma fuel_for_enough (d : Z) :
  exists fuel : nat, fuel_for d = S fuel /\ d <= 200 * Z.of_nat fuel.
Proof.
  unfold fuel_for. eexists; split; [reflexivity|].
  destruct (Z.le_gt_cases 0 d) as [Hd|Hd]; [|lia].
  pose proof (Z.div_pos d 200 Hd ltac:(lia)) as Hq.
  pose proof (Z.mul_succ_div_gt d 200 ltac:(lia)).
  rewrite Nat2Z.inj_succ, Z2Nat.id by exact Hq. lia.
Qed.

(** With a console that accepts its message, [phases] returns, and its
    run is one of [PhasesRun]. *)
Lemma phases_run (timeout grace_period extended_check : Z) (w : World) :
  untouched w -> console_open w ->
  exists (fl : Flags) (w' : World),
    phases env success_keywords connecting_keywords
           timeout grace_period extended_check w = (Ret fl, w')
    /\ PhasesRun env success_keywords connecting_keywords
                 timeout grace_period extended_check w fl w'.
Proof.
  intros Hu Ho. unfold phases, bind at 1, time_time.
  destruct (fuel_for_enough timeout) as (f1 & Ef1 & Hf1).
  destruct (main_loop_run (now w) timeout grace_period f1 w (false, false) Hu)
    as (n1 & fl1 & Hrun1 & Hq1 & Hx1); [lia|].
  rewrite <- Ef1 in Hrun1.
  unfold bind at 1. rewrite Hrun1.
  destruct (snd fl1 && negb (fst fl1)) eqn:Hc.
  - apply andb_true_iff in Hc as [Hconn Hsucc]. apply negb_true_iff in Hsucc.
    unfold bind, print, time_time. cbn [now with_now prints_left]. rewrite Ho.
    destruct (fuel_for_enough extended_check) as (f2 & -> & Hf2).
    set (t1 := now w + 200 * Z.of_nat n1) in *.
    replace (mkWorld t1 _ _ _ _ _) with (with_now (with_msg w MsgConnecting) t1)
      by (unfold with_now, with_msg; cbn [now spawned sigterm_at killed console
            prints_left]; now rewrite Ho).
    set (w1 := with_now (with_msg w MsgConnecting) t1).
    destruct (extended_loop_run t1 extended_check f2 w1 (fst fl1) Hu)
      as (n2 & s & Hrun2 & Hq2 & Hx2); [subst w1; cbn [now with_now]; lia|].
    change (now w1) with t1 in *. rewrite Hrun2. unfold ret. rewrite Hconn.
    exists (s, true), (with_now w1 (now w1 + 200 * Z.of_nat n2)).
    split; [reflexivity|].
    rewrite Hsucc in Hq2, Hx2.
    exact (run_extended _ _ _ _ _ _ w n1 n2 fl1 s Hrun1 Hq1 Hx1 Hconn Hsucc Hq2 Hx2).
  - exists fl1, (with_now w (now w + 200 * Z.of_nat n1)).
    split; [reflexivity|].
    exact (run_main_only _ _ _ _ _ _ w n1 fl1 Hrun1 Hq1 Hx1 Hc).
Qed.

End LoopFacts.

(* ===================================================================== *)
(** ** Probe sessions: termination of the subprocess *)
(* ===================================================================== *)

Section StopFacts.

Variable env : Env.

Lemma opt_le_mono (o : option Z) (t t' : Z) :
  t <= t' -> opt_le o t = true -> opt_le o t' = true.
Proof.
  destruct o as [e|]; cbn [opt_le]; [|discriminate].
  intros Ht H. apply Z.leb_le in H. apply Z.leb_le. lia.
Qed.

(** A process that has ended stays so. *)
Lemma dead_by_mono (w : World) (t t' : Z) :
  t <= t' -> dead_by env w t = true -> dead_by env w t' = true.
Proof.
  unfold dead_by. intros Ht H.
  apply orb_true_iff in H as [H|H]; [apply orb_true_iff in H as [H|H]|];
    rewrite (opt_le_mono _ _ _ Ht H), ?orb_true_r; reflexivity.
Qed.

(** [process.wait(timeout=d)] returns at the first end of the process
    within [d], or raises [TimeoutExpired] after [d]. *)
Lemma wait_run (w : World) (d : Z) :
  0 <= d ->
  (exists t : Z,
      wait env d w = (Ret true, with_now w t)
      /\ now w <= t <= now w + d /\ dead_by env w t = true)
  \/ (wait env d w = (Ret false, with_now w (now w + d))
      /\ dead_by env w (now w + d) = false).
Proof.
  intros Hd. unfold wait.
  destruct (dead_by env w (now w)) eqn:Hdead.
  { left. exists (now w). rewrite with_now_same. repeat split; [lia | lia | exact Hdead]. }
  revert Hdead. unfold dead_by.
  destruct (self_exit env) as [a|], (sigterm_death env w) as [b|],
           (kill_death env w) as [c|];
    cbn [opt_le orb app filter]; intros Hdead;
    repeat (case_if; cbn [fold_left]);
    rewrite ?orb_false_iff in Hdead; leb_to_prop;
    try (right; split; [reflexivity|];
         rewrite ?orb_false_iff, ?Z.leb_gt; repeat split; lia);
    left; eexists; (split; [reflexivity|]);
    repeat match goal with
      | |- context [Z.min ?x ?y] =>
          destruct (Z.min_spec x y) as [[? ->]|[? ->]]
      end;
    rewrite ?orb_true_iff, ?Z.leb_le; lia.
Qed.

(** The termination block, entered with a subprocess that has received
    no signal: it takes at most 2000 ms and prints nothing; when it
    returns its run is one of [Stopped], and when one of its calls
    raises the subprocess is still running. *)
Lemma stop_process_run (w : World) :
  untouched w ->
  exists (r : Res unit) (w' : World),
    stop_process env w = (r, w')
    /\ console w' = console w /\ prints_left w' = prints_left w
    /\ spawned w' = true
    /\ now w <= now w' <= now w + 2000
    /\ match r with
       | Ret _ => Stopped env w w'
       | Raise (PyException op) => raises env op = true /\ running env w' = true
       | Raise PrintError => False
       | OutOfFuel => False
       end.
Proof.
  intros Hu. pose proof Hu as (Hs & Hk & Hg).
  unfold stop_process, bind at 1, poll_exited.
  destruct (running env w) eqn:Hr; cbn [negb].
  2:{ exists (Ret tt), w. split; [reflexivity|].
      repeat split; try lia; try assumption. now apply stopped_exited. }
  destruct (is_windows env) eqn:Hw.
  - unfold taskkill, bind, guard.
    destruct (raises env OpTaskkill) eqn:Ht.
    { exists (Raise (PyException OpTaskkill)), w. split; [reflexivity|].
      repeat split; try lia; assumption. }
    unfold ret. rewrite Hk.
    destruct (taskkill_ok env) eqn:Hok.
    + exists (Ret tt), (with_killed w (now w)). split; [reflexivity|].
      cbn [with_killed now console spawned prints_left].
      repeat split; try lia; try assumption. now apply stopped_taskkill.
    + exists (Ret tt), w. split; [reflexivity|].
      repeat split; try lia; try assumption. now apply stopped_taskkill_failed.
  - unfold terminate, bind at 1, bind at 1, guard.
    destruct (raises env OpTerminate) eqn:Ht.
    { exists (Raise (PyException OpTerminate)), w. split; [reflexivity|].
      repeat split; try lia; assumption. }
    unfold ret. rewrite Hg. fold (with_sigterm w (now w)).
    set (w1 := with_sigterm w (now w)).
    unfold bind at 1.
    destruct (wait_run w1 2000 ltac:(lia)) as [(t & -> & Ht1 & Hdead)|[-> Halive]].
    + exists (Ret tt), (with_now w1 t). split; [reflexivity|].
      cbn [w1 with_now with_sigterm now console spawned prints_left] in *.
      repeat split; try lia; try assumption.
      apply stopped_sigterm; try assumption.
      unfold running. cbn [with_now with_sigterm now spawned].
      rewrite Hs. cbn [andb]. apply negb_false_iff. exact Hdead.
    + assert (Hrun : running env (with_now w1 (now w1 + 2000)) = true).
      { unfold running. cbn [w1 with_now with_sigterm now spawned].
        rewrite Hs. cbn [andb]. apply negb_true_iff. exact Halive. }
      unfold kill, bind, guard.
      destruct (raises env OpKill) eqn:Hkill.
      * exists (Raise (PyException OpKill)), (with_now w1 (now w1 + 2000)).
        split; [reflexivity|].
        cbn [w1 with_now with_sigterm now console spawned prints_left] in *.
        repeat split; try lia; assumption.
      * unfold ret.
        exists (Ret tt),
          (with_killed (with_now w1 (now w1 + 2000)) (now w1 + 2000)).
        split.
        { cbn [w1 with_now with_sigterm with_killed now console spawned
                  prints_left killed sigterm_at]. now rewrite Hk. }
        cbn [w1 with_now with_sigterm with_killed now console spawned prints_left] in *.
        repeat split; try lia; try assumption.
        now apply stopped_sigkill.
Qed.

(** After the termination block has returned, either the subprocess is
    gone, or it has just been sent SIGKILL, or taskkill has failed. *)
Lemma Stopped_cases (w3 w4 : World) :
  untouched w3 -> Stopped env w3 w4 ->
  running env w4 = false
  \/ killed w4 = Some (now w4)
  \/ (is_windows env = true /\ taskkill_ok env = false /\ w4 = w3).
Proof.
  intros (Hs & Hk & Hg) [Hr|Hr Hw Hok|Hr Hw Hok|t Hr Hw Ht Hd|Hr Hw Hd].
  - now left.
  - right; left. reflexivity.
  - right; right. now repeat split.
  - now left.
  - right; left. reflexivity.
Qed.

(** Unless taskkill has failed, the subprocess is gone [sigkill_exit]
    after the termination block has returned. *)
Lemma Stopped_gone_soon (w3 w4 : World) :
  untouched w3 -> Stopped env w3 w4 ->
  (is_windows env = true -> taskkill_ok env = true) ->
  running env (with_now w4 (now w4 + Z.max 0 (sigkill_exit env))) = false.
Proof.
  intros (Hs & Hk & Hg) H Hok.
  assert (Hlater : forall w : World,
             running env w = false -> spawned w = true ->
             running env (with_now w (now w + Z.max 0 (sigkill_exit env))) = false).
  { intros w Hr Hsp. unfold running in *. cbn [with_now now spawned].
    rewrite Hsp in *. cbn [andb] in *. apply negb_false_iff in Hr.
    apply negb_false_iff.
    change (dead_by env w (now w + Z.max 0 (sigkill_exit env)) = true).
    apply (dead_by_mono w (now w)); [lia | exact Hr]. }
  assert (Hkilled : forall w : World,
             killed w = Some (now w) ->
             running env (with_now w (now w + Z.max 0 (sigkill_exit env))) = false).
  { intros w Hkw. unfold running, dead_by, kill_death.
    cbn [with_now now spawned killed]. rewrite Hkw. cbn [opt_le].
    rewrite Z.leb_refl. cbn [orb negb]. apply andb_false_r. }
  destruct H as [Hr|Hr Hw Hok'|Hr Hw Hok'|t Hr Hw Ht Hd|Hr Hw Hd].
  - now apply Hlater.
  - now apply Hkilled.
  - rewrite (Hok Hw) in Hok'. discriminate.
  - apply Hlater; [exact Hd | exact Hs].
  - now apply Hkilled.
Qed.

End StopFacts.

(* ===================================================================== *)
(** ** Probe sessions: the runs of [test_channel] *)
(* ===================================================================== *)

Section SessionFacts.

Variable env : Env.
Variables name url : string.
Variables timeout grace_period extended_check : Z.

Lemma PhasesRun_world (skw ckw : list string) (w : World) (fl : Flags) (w' : World) :
  PhasesRun env skw ckw timeout grace_period extended_check w fl w' ->
  untouched w ->
  untouched w' /\ now w <= now w'
  /\ (console w' = console w \/ console w' = (console w ++ [MsgConnecting])%list).
Proof.
  intros Hrun Hu. inversion Hrun; subst; cbn [now console with_now with_msg].
  - split; [exact Hu|]. split; [lia | now left].
  - split; [exact Hu|]. split; [subst t1; lia | now right].
Qed.

Lemma PhasesRun_console_open (skw ckw : list string) (w : World) (fl : Flags)
  (w' : World) :
  PhasesRun env skw ckw timeout grace_period extended_check w fl w' ->
  console_open w -> console_open w'.
Proof.
  unfold console_open. intros Hrun Ho.
  inversion Hrun; subst; cbn [prints_left with_now with_msg]; now rewrite Ho.
Qed.

Lemma spawned_world_untouched : untouched (spawned_world name).
Proof. repeat split. Qed.

(** With a console that accepts every line, [print] appends its line. *)
Lemma print_open (m : Msg) (w : World) :
  console_open w -> print m w = (Ret tt, with_msg w m).
Proof. unfold console_open, print, with_msg. now intros ->. Qed.

(** A session of [test_channel] returns a value, along one of the runs
    of [SessionRun]. *)
Lemma test_channel_run :
  exists (r : string * string * bool) (w' : World),
    test_channel env name url timeout grace_period extended_check initial_world
    = (Ret r, w')
    /\ SessionRun env name url timeout grace_period extended_check r w'.
Proof.
  unfold test_channel, test_channel_try, try_except.
  unfold bind at 1. unfold print at 1.
  cbn [now spawned sigterm_at killed console prints_left initial_world
       console_world app].
  unfold bind at 1, popen, bind at 1, guard.
  destruct (raises env OpPopen) eqn:Hp.
  { do 2 eexists. split; [reflexivity|]. exact (session_no_process _ _ _ _ _ _ Hp). }
  unfold ret at 1. cbn [now spawned sigterm_at killed console prints_left].
  fold (spawned_world name).
  unfold bind at 1, thread_start, guard.
  destruct (raises env OpThreadStart) eqn:Ht.
  { do 2 eexists. split; [reflexivity|]. exact (session_no_reader _ _ _ _ _ _ Hp Ht). }
  unfold ret at 1.
  assert (Ho : console_open (spawned_world name)) by reflexivity.
  destruct (phases_run env test_channel_success_keywords test_channel_connecting_keywords
              timeout grace_period extended_check _ spawned_world_untouched Ho)
    as (fl & w3 & Hph & Hrun).
  unfold bind at 1. rewrite Hph.
  destruct (PhasesRun_world _ _ _ _ _ Hrun spawned_world_untouched) as (Hu3 & _ & _).
  pose proof (PhasesRun_console_open _ _ _ _ _ Hrun Ho) as Ho3.
  destruct (stop_process_run env w3 Hu3)
    as (r & w4 & Hstop & Hcon & Hpl & _ & Hnow & Hr).
  assert (Ho4 : console_open w4) by (unfold console_open; now rewrite Hpl).
  unfold bind at 1. rewrite Hstop.
  destruct r as [[]|[op|]|].
  - exists (name, url, fst fl), (with_msg w4 (verdict_msg (verdict fl) name)).
    split.
    + unfold verdict, verdict_msg.
      destruct (fst fl); [|destruct (snd fl)];
        unfold bind; rewrite (print_open _ _ Ho4); reflexivity.
    + exact (session_verdict _ _ _ _ _ _ fl w3 w4 Hp Ht Hph Hrun Hstop Hr Hcon Hnow).
  - destruct Hr as [Hop Halive].
    do 2 eexists. split; [unfold bind; rewrite (print_open _ _ Ho4); reflexivity|].
    exact (session_stop_raises _ _ _ _ _ _ fl w3 w4 op Hp Ht Hph Hrun Hstop Hop Halive).
  - contradiction.
  - contradiction.
Qed.

End SessionFacts.

(* ===================================================================== *)
(** ** Probe sessions: statements *)
(* ===================================================================== *)

Lemma Op_eq_dec_popen (op : Op) : op = OpPopen \/ op <> OpPopen.
Proof. destruct op; (now left) || (right; discriminate). Qed.

Section SessionStatements.

(** C1 (as the code has it).  A session of [test_channel] whose console
    rejects the first line raises at the [print] that precedes the [try]
    and returns nothing.  With a console that accepts every line it
    returns [(name, url, b)]: when [Popen] raises, or when [Thread.start]
    raises, the handler prints the error and [b] is false; otherwise the
    phases end with flags [fl] and the termination block runs; if one of
    its calls raises, the handler prints the error and [b] is false; if
    it returns, the verdict is [Success] if [success_detected], else
    [Ambiguous] if [connection_detected], else [Failure], the message
    printed last names the verdict, and [b] is true exactly for
    [Success]: the value is the same for [Ambiguous] and [Failure]. *)
Theorem test_channel_value_is_boolean
  (env : Env) (name url : string) (timeout grace_period extended_check : Z) :
  test_channel env name url timeout grace_period extended_check
               (console_world (Some 0%nat))
  = (Raise PrintError, console_world (Some 0%nat))
  /\ exists (b : bool) (w' : World),
       test_channel env name url timeout grace_period extended_check initial_world
       = (Ret (name, url, b), w')
       /\ if raises env OpPopen then
            b = false
            /\ console w' = [MsgTesting name; MsgError name (PyException OpPopen)]
          else if raises env OpThreadStart then
            b = false
            /\ console w'
               = [MsgTesting name; MsgError name (PyException OpThreadStart)]
          else
            exists (fl : Flags) (w3 : World) (r : Res unit) (w4 : World),
              phases env test_channel_success_keywords
                     test_channel_connecting_keywords
                     timeout grace_period extended_check (spawned_world name)
              = (Ret fl, w3)
              /\ stop_process env w3 = (r, w4)
              /\ match r with
                 | Ret _ =>
                     b = match verdict fl with Success => true | _ => false end
                     /\ last (console w') (MsgTesting name)
                        = verdict_msg (verdict fl) name
                 | Raise e =>
                     (exists op : Op, e = PyException op /\ raises env op = true)
                     /\ b = false
                     /\ last (console w') (MsgTesting name) = MsgError name e
                 | OutOfFuel => False
                 end.
Proof.
  split; [reflexivity|].
  destruct (test_channel_run env name url timeout grace_period extended_check)
    as (r & w' & Hrun & Hs).
  destruct Hs as [Hp|Hp Ht|fl w3 w4 op Hp Ht Hph HR Hstop Hop Halive
                 |fl w3 w4 Hp Ht Hph HR Hstop Hstopped Hcon Hnow];
    (do 2 eexists; split; [exact Hrun|]); rewrite Hp; try rewrite Ht.
  - split; reflexivity.
  - split; reflexivity.
  - exists fl, w3, (Raise (PyException op)), w4.
    split; [exact Hph|]. split; [exact Hstop|]. split; [|split].
    + exists op. now split.
    + reflexivity.
    + unfold with_msg. cbn [console]. apply last_last.
  - exists fl, w3, (Ret tt), w4.
    split; [exact Hph|]. split; [exact Hstop|]. split.
    + unfold verdict. destruct (fst fl); [reflexivity|]. destruct (snd fl); reflexivity.
    + unfold with_msg. cbn [console]. apply last_last.
Qed.

(** C1, as stated, fails: a session that ends [Ambiguous] and one that
    ends [Failure] return the same value. *)
Lemma ambiguous_and_failure_same_value :
  let ra := test_channel env_opening "n" "u" 4000 1000 2000 initial_world in
  let rf := test_channel env_silent "n" "u" 4000 1000 2000 initial_world in
  last (console (snd ra)) MsgConnecting = MsgMaybe "n"
  /\ last (console (snd rf)) MsgConnecting = MsgFail "n"
  /\ fst ra = Ret ("n", "u", false)
  /\ fst rf = Ret ("n", "u", false).
Proof. vm_compute. repeat split. Qed.

(** C2, at the input that breaks it: the subprocess is started, then
    [Thread.start] raises; the handler returns [(name, url, False)] and
    the subprocess is still running.  The same happens on Windows when
    the call of taskkill raises. *)
Theorem exception_path_leaves_process_running :
  let r := test_channel env_thread_fault "n" "u" 4000 1000 2000 initial_world in
  let r' := test_channel env_taskkill_fault "n" "u" 4000 1000 2000 initial_world in
  fst r = Ret ("n", "u", false)
  /\ console (snd r) = [MsgTesting "n"; MsgError "n" (PyException OpThreadStart)]
  /\ running env_thread_fault (snd r) = true
  /\ fst r' = Ret ("n", "u", false)
  /\ console (snd r') = [MsgTesting "n"; MsgError "n" (PyException OpTaskkill)]
  /\ running env_taskkill_fault (snd r') = true.
Proof. vm_compute. repeat split. Qed.

(** C4, at the input that breaks it: the prober writes one line, with
    a success and a connecting keyword, and exits before the next poll.
    The loop leaves on the exit of the process without scanning again,
    both flags are false when the verdict is computed, although the
    line is in [output_lines], and the session reports a failure. *)
Theorem keyword_before_exit_is_missed :
  let line := "Opening 'http://a/1': Stream #0:0: Video: h264" in
  let r := test_channel env_line_then_exit "n" "u" 4000 1000 2000 initial_world in
  stderr_lines env_line_then_exit = [(100, line)]
  /\ PyStr.any_in test_channel_success_keywords line = true
  /\ PyStr.any_in test_channel_connecting_keywords line = true
  /\ visible env_line_then_exit (now (snd r)) = [line]
  /\ fst (phases env_line_then_exit test_channel_success_keywords
                 test_channel_connecting_keywords 4000 1000 2000 (spawned_world "n"))
     = Ret (false, false)
  /\ r = (Ret ("n", "u", false),
          mkWorld 200 true None None [MsgTesting "n"; MsgFail "n"] None).
Proof. vm_compute. repeat split. Qed.

(** C9.  The success keywords of the two probing functions differ:
    [check_stream_status] has also "Opening" and "AVFormat".  On a
    stream whose only line has the keyword "Opening", with the same
    arguments, [check_stream_status] returns [True] and [test_channel]
    ends with the verdict [Ambiguous] and the value [False]. *)
Theorem probing_functions_disagree :
  (In "Opening" check_stream_status_success_keywords
   /\ In "AVFormat" check_stream_status_success_keywords
   /\ ~ In "Opening" test_channel_success_keywords
   /\ ~ In "AVFormat" test_channel_success_keywords
   /\ incl test_channel_success_keywords check_stream_status_success_keywords)
  /\ exists (env : Env) (line : string),
       stderr_lines env = [(100, line)]
       /\ PyStr.contains line "Opening" = true
       /\ PyStr.any_in test_channel_success_keywords line = false
       /\ fst (check_stream_status env "n" "u" 4000 1000 2000 initial_world) = Ret true
       /\ test_channel env "n" "u" 4000 1000 2000 initial_world
          = (Ret ("n", "u", false),
             mkWorld 8000 true (Some 6000) (Some 8000)
                     [MsgTesting "n"; MsgConnecting; MsgMaybe "n"] None).
Proof.
  split.
  - repeat split.
    + cbn. tauto.
    + cbn. tauto.
    + cbn. intros [H|[H|[H|[]]]]; discriminate H.
    + cbn. intros [H|[H|[H|[]]]]; discriminate H.
    + intros k [<-|[<-|[<-|[]]]]; cbn; tauto.
  - exists env_opening, "Opening 'http://a/1' for reading".
    vm_compute. repeat split.
Qed.

End SessionStatements.

(* ===================================================================== *)
(** ** The result loop of [main]: statements *)
(* ===================================================================== *)

Section SchedulerFacts.

Variable env_of : nat -> Env.
Variable console_of : nat -> option nat.
Hypothesis consoles_open : forall i : nat, console_of i = None.

(** When the console accepts every line of every session, every future
    holds a value, the record of its entry. *)
Lemma submit_all_returns (entries : list Entry) : forall i : nat,
  exists records : list (string * string * bool),
    submit_all env_of console_of i entries = map Ret records
    /\ map record_entry records = entries.
Proof.
  induction entries as [|[name url] entries IH]; intros i.
  - exists []. now split.
  - destruct (IH (S i)) as (records & Hs & He).
    destruct (test_channel_run (env_of i) name url 4000 1000 2000)
      as (r & w' & Hrun & Hsess).
    assert (Hr : record_entry r = (name, url)) by (inversion Hsess; reflexivity).
    exists (r :: records). cbn [submit_all map].
    rewrite consoles_open. fold initial_world.
    rewrite Hrun, Hs, Hr, He.
    now split.
Qed.

Lemma main_collect_returns (records : list (string * string * bool)) :
  forall st : MainState,
    exists st' : MainState,
      main_collect (map Ret records) st = Ret st'
      /\ log_file st' = (log_file st ++ records)%list.
Proof.
  induction records as [|r records IH]; intros st; cbn [map main_collect].
  - exists st. now rewrite app_nil_r.
  - destruct (IH (record_result st r)) as (st' & Hc & Hl).
    exists st'. split; [exact Hc|].
    rewrite Hl. destruct r as [[n u] b]. cbn [record_result log_file].
    now rewrite <- app_assoc.
Qed.

End SchedulerFacts.

(* ===================================================================== *)
(** ** The grace period *)
(* ===================================================================== *)

Section GraceFacts.

Variable env : Env.

Lemma exited_by_mono (t1 t2 : Z) :
  t1 <= t2 -> exited_by env t1 = true -> exited_by env t2 = true.
Proof.
  unfold exited_by, opt_le. destruct (self_exit env) as [e|]; [|discriminate].
  intros Ht H. apply Z.leb_le in H. apply Z.leb_le. lia.
Qed.

Lemma seen_line (kw : list string) (a t : Z) (line : string) :
  In (a, line) (stderr_lines env) -> PyStr.any_in kw line = true -> a <= t ->
  seen kw env t = true.
Proof.
  intros Hin Hkw Hle. unfold seen, visible.
  apply existsb_exists. exists line. split; [|exact Hkw].
  apply in_map_iff. exists (a, line). split; [reflexivity|].
  apply filter_In. split; [exact Hin|]. apply Z.leb_le. exact Hle.
Qed.

Lemma main_break_true (skw : list string) (grace_period t : Z) :
  exited_by env t = true \/ (seen skw env t = true /\ grace_period <= t) ->
  main_break env skw 0 grace_period (false, false) t = true.
Proof.
  unfold main_break. cbn [fst orb]. rewrite Z.sub_0_r.
  intros [->|[-> Hg]]; [reflexivity|].
  apply Z.leb_le in Hg. rewrite Hg. apply orb_true_r.
Qed.

(** The main loop of a session ends before its timeout exactly when,
    at one of its ticks before the timeout, the process has exited or a
    success line has arrived and the grace period is over. *)
Lemma main_loop_early_iff (skw ckw : list string) (name : string)
  (timeout grace_period : Z) :
  exists (fl : Flags) (t : Z),
    main_loop env (fuel_for timeout) skw ckw 0 timeout grace_period (false, false)
              (spawned_world name)
    = (Ret fl, with_now (spawned_world name) t)
    /\ (t < timeout <->
        exists j : nat,
          200 * Z.of_nat j < timeout
          /\ (exited_by env (200 * Z.of_nat j) = true
              \/ (seen skw env (200 * Z.of_nat j) = true
                  /\ grace_period <= 200 * Z.of_nat j))).
Proof.
  destruct (fuel_for_enough timeout) as (f & -> & Hf).
  destruct (main_loop_run env skw ckw 0 timeout grace_period f
              (spawned_world name) (false, false) (spawned_world_untouched name))
    as (n & fl & Hrun & Hq & Hx); [cbn [now spawned_world]; lia|].
  cbn [now spawned_world] in Hrun, Hq, Hx. fold (spawned_world name) in Hrun.
  exists fl, (0 + 200 * Z.of_nat n). split; [exact Hrun|].
  unfold main_exit in Hx. cbv zeta in Hx.
  split.
  - intros Hearly. exists n.
    destruct Hx as [(H1 & _) | [(H1 & H2 & _) | (H1 & H2 & H3 & H4 & H5)]].
    + lia.
    + split; [lia|]. left. rewrite Z.add_0_l in H2. exact H2.
    + split; [lia|]. right.
      rewrite H3, scan_main_flags in H4. cbn [fst orb] in H4.
      rewrite Z.add_0_l in H4. split; [exact H4 | lia].
  - intros (j & Hj & Hcond).
    destruct (Z_lt_ge_dec (0 + 200 * Z.of_nat n) timeout) as [Hlt|Hge]; [exact Hlt|].
    destruct (Hq j ltac:(lia)) as [_ Hnb].
    rewrite Z.add_0_l in Hnb. rewrite (main_break_true _ _ _ Hcond) in Hnb.
    discriminate.
Qed.

(** The scenario of the statement: a success line at 0.3 s, a grace
    period of 1 s, a timeout of 1 s or more, the process running at the
    polls up to 0.8 s.  The main loop makes five sleeps and its flags
    then have [success_detected]. *)
Lemma grace_scenario_ticks (skw ckw : list string) (timeout : Z) (n : nat)
  (fl : Flags) :
  (exists line, In (300, line) (stderr_lines env) /\ PyStr.any_in skw line = true) ->
  exited_by env 800 = false ->
  1000 <= timeout ->
  main_quiet env skw 0 timeout 1000 0 (false, false) n ->
  main_exit env skw ckw 0 timeout 1000 0 (false, false) n fl ->
  n = 5%nat /\ fst fl = true.
Proof.
  intros (line & Hin & Hkw) Halive Ht Hq Hx.
  assert (Hseen : forall t, 300 <= t -> seen skw env t = true)
    by (intros t; exact (seen_line _ _ _ _ Hin Hkw)).
  assert (Hn : n = 5%nat).
  { destruct (Nat.lt_trichotomy n 5) as [Hlt|[Heq|Hgt]]; [|exact Heq|].
    - exfalso. unfold main_exit in Hx. cbv zeta in Hx.
      destruct Hx as [(H1 & _) | [(_ & H2 & _) | (_ & _ & _ & _ & H5)]]; [lia| |lia].
      assert (Hle : 0 + 200 * Z.of_nat n <= 800) by lia.
      rewrite (exited_by_mono _ 800 Hle H2) in Halive. discriminate.
    - exfalso. destruct (Hq 5%nat Hgt) as [_ Hnb].
      rewrite main_break_true in Hnb; [discriminate|].
      right. split; [apply Hseen|]; lia. }
  split; [exact Hn|]. subst n.
  unfold main_exit in Hx. cbv zeta in Hx. cbn [flags_after] in Hx.
  destruct Hx as [(_ & ->) | [(_ & _ & ->) | (_ & _ & _ & H4 & _)]];
    [| |exact H4];
    rewrite scan_main_flags; cbn [fst orb]; apply Hseen; lia.
Qed.

End GraceFacts.

(** C3 (as the code has it).  The main loop of a session ends before
    its timeout exactly when, at a polling tick before the timeout, the
    process has exited by itself, or a success keyword has been seen and
    the elapsed time is at least the grace period.  When a success keyword
    arrives at 0.3 s, the grace period is 1 s, the timeout at least 1 s,
    the process is still running at the polls up to 0.8 s and no call
    raises, the main loop ends at 1 s, the first tick at or after the
    grace period, and the session returns [True] once the termination
    block has returned, between 1 s and 3 s. *)
Theorem main_loop_early_exit
  (env : Env) (name url : string) (timeout grace_period extended_check : Z) :
  (exists (fl : Flags) (t : Z),
      main_loop env (fuel_for timeout) test_channel_success_keywords
                test_channel_connecting_keywords 0 timeout grace_period (false, false)
                (spawned_world name)
      = (Ret fl, with_now (spawned_world name) t)
      /\ (t < timeout <->
          exists j : nat,
            200 * Z.of_nat j < timeout
            /\ (exited_by env (200 * Z.of_nat j) = true
                \/ (seen test_channel_success_keywords env (200 * Z.of_nat j) = true
                    /\ grace_period <= 200 * Z.of_nat j))))
  /\ ((forall op, raises env op = false) ->
      (exists line, In (300, line) (stderr_lines env)
                    /\ PyStr.any_in test_channel_success_keywords line = true) ->
      exited_by env 800 = false ->
      grace_period = 1000 -> 1000 <= timeout ->
      exists (fl : Flags) (w' : World),
        main_loop env (fuel_for timeout) test_channel_success_keywords
                  test_channel_connecting_keywords 0 timeout grace_period (false, false)
                  (spawned_world name)
        = (Ret fl, with_now (spawned_world name) 1000)
        /\ fst fl = true
        /\ test_channel env name url timeout grace_period extended_check initial_world
           = (Ret (name, url, true), w')
        /\ 1000 <= now w' <= 3000).
Proof.
  split; [apply main_loop_early_iff|].
  intros Hq Hline Halive -> Ht.
  destruct (test_channel_run env name url timeout 1000 extended_check)
    as (r & w' & Hrun & Hs).
  inversion Hs as [Hp | Hp Hth | fl w3 w4 op Hp Hth Hph HR Hstop Hop Hal
                   | fl w3 w4 Hp Hth Hph HR Hstop Hstopped Hcon Hnow];
    try (rewrite Hq in *; discriminate).
  subst r w'.
  inversion HR as [n1 fl1 Hml Hqu Hx Hc E1 E2
                  | n1 n2 fl1 s Hml Hqu Hx Hconn Hsucc t1 Hq2 Hx2 E1 E2];
    cbn [now spawned_world] in Hml, Hqu, Hx;
    destruct (grace_scenario_ticks env _ _ timeout n1 _ Hline Halive Ht Hqu Hx)
      as [-> Hfst].
  - subst fl1 w3. exists fl, (with_msg w4 (verdict_msg (verdict fl) name)).
    cbn [now with_now with_msg] in *.
    split; [exact Hml|]. split; [exact Hfst|].
    split; [now rewrite Hrun, Hfst|].
    cbn [now spawned_world] in Hnow.
    lia.
  - congruence.
Qed.

Lemma main_loop_early_exit_witness :
  exists (fl : Flags) (w' : World),
    main_loop env_success_at_300 (fuel_for 4000) test_channel_success_keywords
              test_channel_connecting_keywords 0 4000 1000 (false, false)
              (spawned_world "n")
    = (Ret fl, with_now (spawned_world "n") 1000)
    /\ fst fl = true
    /\ test_channel env_success_at_300 "n" "u" 4000 1000 2000 initial_world
       = (Ret ("n", "u", true), w')
    /\ 1000 <= now w' <= 3000.
Proof.
  apply (proj2 (main_loop_early_exit env_success_at_300 "n" "u" 4000 1000 2000)).
  - intros op. reflexivity.
  - eexists. split; [left; reflexivity | reflexivity].
  - reflexivity.
  - reflexivity.
  - lia.
Defined.

(** C3, as stated, fails: with the success line at 0.3 s and a grace
    period of 1 s, a prober that exits by itself at 0.5 s makes the main
    loop end at 0.6 s, before the timeout of 4 s and before the grace
    period is over, and the session returns [True] at 0.6 s. *)
Lemma success_reported_before_grace :
  let r := main_loop env_success_then_exit (fuel_for 4000) test_channel_success_keywords
                     test_channel_connecting_keywords 0 4000 1000 (false, false)
                     (spawned_world "n") in
  fst r = Ret (true, false)
  /\ now (snd r) = 600
  /\ (1000 <=? now (snd r)) = false
  /\ test_channel env_success_then_exit "n" "u" 4000 1000 2000 initial_world
     = (Ret ("n", "u", true),
        mkWorld 600 true None None [MsgTesting "n"; MsgSuccess "n"] None).
Proof. vm_compute. repeat split. Qed.

(* ===================================================================== *)
(** ** Probe sessions: what the scans detect *)
(* ===================================================================== *)

Section DetectionFacts.

Variable env : Env.

(** A line that has arrived by a poll of the main loop at which the
    process is still running is not missed: a success keyword sets
    [success_detected]; a connecting keyword sets [connection_detected],
    unless the loop was left on success before. *)
Lemma main_loop_detects (skw ckw : list string) (timeout grace_period : Z)
  (n : nat) (fl : Flags) (j : nat) :
  main_quiet env skw 0 timeout grace_period 0 (false, false) n ->
  main_exit env skw ckw 0 timeout grace_period 0 (false, false) n fl ->
  200 * Z.of_nat j < timeout ->
  exited_by env (200 * Z.of_nat j) = false ->
  (seen skw env (200 * Z.of_nat j) = true -> fst fl = true)
  /\ (seen ckw env (200 * Z.of_nat j) = true -> fst fl = true \/ snd fl = true).
Proof.
  intros Hq Hx Hj Halive.
  assert (Hafter : (j < n)%nat ->
                   fl = flags_after env skw ckw 0 (false, false) n ->
                   (seen skw env (200 * Z.of_nat j) = true -> fst fl = true)
                   /\ (seen ckw env (200 * Z.of_nat j) = true -> snd fl = true)).
  { intros Hlt ->. destruct n as [|m]; [lia|].
    cbn [flags_after]. rewrite scan_main_flags. cbn [fst snd orb].
    fold (seen skw env (0 + 200 * Z.of_nat m)) (seen ckw env (0 + 200 * Z.of_nat m)).
    split; apply seen_mono; lia. }
  unfold main_exit in Hx. cbv zeta in Hx.
  destruct Hx as [(H1 & H2) | [(H1 & H2 & H3) | (_ & _ & _ & H4 & _)]].
  - destruct (Hafter ltac:(lia) H2) as [Hs Hc]. split; [exact Hs | auto].
  - assert (Hlt : (j < n)%nat).
    { destruct (Nat.lt_ge_cases j n) as [Hlt|Hge]; [exact Hlt|].
      assert (Hle : 0 + 200 * Z.of_nat n <= 200 * Z.of_nat j) by lia.
      rewrite (exited_by_mono env _ _ Hle H2) in Halive. discriminate. }
    destruct (Hafter Hlt H3) as [Hs Hc]. split; [exact Hs | auto].
  - split; intros _; [exact H4 | left; exact H4].
Qed.

(** In a session where no call raises, a success line that has arrived
    by such a poll makes [test_channel] return [True], and a connecting
    line keeps the verdict from being [Failure]. *)
Lemma keyword_at_live_poll_is_detected
  (name url : string) (timeout grace_period extended_check : Z) (j : nat) :
  (forall op, raises env op = false) ->
  200 * Z.of_nat j < timeout ->
  exited_by env (200 * Z.of_nat j) = false ->
  exists (b : bool) (w' : World),
    test_channel env name url timeout grace_period extended_check initial_world
    = (Ret (name, url, b), w')
    /\ (seen test_channel_success_keywords env (200 * Z.of_nat j) = true ->
        b = true /\ last (console w') (MsgTesting name) = MsgSuccess name)
    /\ (seen test_channel_connecting_keywords env (200 * Z.of_nat j) = true ->
        last (console w') (MsgTesting name) <> MsgFail name).
Proof.
  intros Hq Hj Halive.
  destruct (test_channel_run env name url timeout grace_period extended_check)
    as (r & w' & Hrun & Hs).
  inversion Hs as [Hp | Hp Hth | fl w3 w4 op Hp Hth Hph HR Hstop Hop Hal
                   | fl w3 w4 Hp Hth Hph HR Hstop Hstopped Hcon Hnow];
    try (rewrite Hq in *; discriminate).
  subst r w'. do 2 eexists. split; [exact Hrun|].
  unfold with_msg. cbn [console]. rewrite last_last.
  inversion HR as [n1 fl1 Hml Hqu Hx Hc E1 E2
                  | n1 n2 fl1 s Hml Hqu Hx Hconn Hsucc t1 Hq2 Hx2 E1 E2];
    cbn [now spawned_world] in Hqu, Hx;
    destruct (main_loop_detects _ _ timeout grace_period n1 _ j Hqu Hx Hj Halive)
      as [Hs1 Hc1].
  - split.
    + intros Hseen. rewrite (Hs1 Hseen). unfold verdict. rewrite (Hs1 Hseen).
      now split.
    + intros Hseen. unfold verdict.
      destruct (Hc1 Hseen) as [->| ->]; [discriminate|].
      destruct (fst fl); discriminate.
  - split.
    + intros Hseen. rewrite (Hs1 Hseen) in Hsucc. discriminate.
    + intros _. unfold verdict. cbn [fst snd]. destruct s; discriminate.
Qed.

End DetectionFacts.

(* ===================================================================== *)
(** ** The extended phase *)
(* ===================================================================== *)

Section ExtendedFacts.

Lemma loop_end_ticks (d : Z) (n : nat) :
  (forall j : nat, (j < n)%nat -> 200 * Z.of_nat j < d) ->
  d <= 200 * Z.of_nat n ->
  200 * Z.of_nat n = loop_end d.
Proof.
  intros Hq Hd. unfold loop_end.
  destruct n as [|m].
  - change (Z.of_nat 0) with 0 in *.
    assert ((d + 199) / 200 < 1) by (apply Z.div_lt_upper_bound; lia).
    lia.
  - specialize (Hq m (Nat.lt_succ_diag_r m)).
    assert (Hdiv : (d + 199) / 200 = Z.of_nat (S m)).
    { symmetry. apply (Z.div_unique (d + 199) 200 (Z.of_nat (S m))
                                    (d + 199 - 200 * Z.of_nat (S m))); lia. }
    rewrite Hdiv. lia.
Qed.

Lemma loop_end_bounds (d : Z) : 0 <= d -> d <= loop_end d < d + 200.
Proof.
  intros Hd. unfold loop_end.
  pose proof (Z.div_mod (d + 199) 200 ltac:(lia)) as E.
  pose proof (Z.mod_pos_bound (d + 199) 200 ltac:(lia)) as B.
  assert (0 <= (d + 199) / 200) by (apply Z.div_pos; lia).
  lia.
Qed.

Variable env : Env.
Variables skw ckw : list string.

(** A main loop that no [break] ends: the process never exits and no
    success line ever arrives. *)
Lemma main_loop_to_timeout (timeout grace_period : Z) (n : nat) (fl : Flags) :
  self_exit env = None ->
  (forall t, seen skw env t = false) ->
  0 < timeout ->
  main_quiet env skw 0 timeout grace_period 0 (false, false) n ->
  main_exit env skw ckw 0 timeout grace_period 0 (false, false) n fl ->
  200 * Z.of_nat n = loop_end timeout
  /\ fl = (false, seen ckw env (loop_end timeout - 200)).
Proof.
  intros Hne Hns Ht Hq Hx. unfold main_exit in Hx. cbv zeta in Hx.
  destruct Hx as [(H1 & H2) | [(_ & H2 & _) | (_ & _ & H3 & H4 & _)]].
  - assert (Hn : 200 * Z.of_nat n = loop_end timeout).
    { apply loop_end_ticks; [|lia].
      intros j Hj. destruct (Hq j Hj) as [Hlt _]. lia. }
    split; [exact Hn|]. subst fl.
    destruct n as [|m]; [change (Z.of_nat 0) with 0 in H1; lia|].
    cbn [flags_after]. rewrite scan_main_flags. cbn [fst snd orb].
    fold (seen skw env (0 + 200 * Z.of_nat m)) (seen ckw env (0 + 200 * Z.of_nat m)).
    rewrite Hns. f_equal. f_equal. lia.
  - unfold exited_by in H2. rewrite Hne in H2. discriminate.
  - rewrite H3, scan_main_flags in H4. cbn [fst orb] in H4.
    fold (seen skw env (0 + 200 * Z.of_nat n)) in H4. rewrite Hns in H4. discriminate.
Qed.

(** The same for the extended loop, entered at [t1]. *)
Lemma extended_loop_to_timeout (extended_check t1 : Z) (n : nat) (s : bool) :
  self_exit env = None ->
  (forall t, seen skw env t = false) ->
  extended_quiet env skw t1 extended_check t1 false n ->
  extended_exit env skw t1 extended_check t1 false n s ->
  200 * Z.of_nat n = loop_end extended_check /\ s = false.
Proof.
  intros Hne Hns Hq Hx. unfold extended_exit in Hx. cbv zeta in Hx.
  destruct Hx as [(H1 & H2) | [(_ & H2 & _) | (_ & _ & H3 & _)]].
  - split; [|exact H2]. apply loop_end_ticks; [|lia].
    intros j Hj. destruct (Hq j Hj) as [Hlt _]. lia.
  - unfold exited_by in H2. rewrite Hne in H2. discriminate.
  - rewrite Hns in H3. discriminate.
Qed.

End ExtendedFacts.

(** C5 (as the code has it).  The extended phase is entered, and its
    message printed, exactly when the main loop ends with
    [connection_detected] and not [success_detected].  For a session in
    which no call raises, the process never exits by itself, no success
    keyword ever arrives and a connecting keyword has arrived by one of
    the polls of the main loop (a tick before the timeout): the extended
    phase is entered; on the clock of the sessions, which advances in
    [sleep] and [wait] only, the polling ends at least
    [timeout + extended_check] after the start and less than two ticks
    later; the termination block then takes at most 2 s and the session
    returns [False] with the verdict [Ambiguous].  The process is asked
    to end, and nothing checks that it has: on Windows taskkill is called
    once, and the process has been killed if taskkill reports success;
    elsewhere SIGTERM is sent when the polling ends, and either the
    process has ended when the session returns, or SIGKILL is sent 2 s
    later, as the last action of the session.  Unless taskkill fails,
    the process is gone [sigkill_exit] after the session has returned. *)
Theorem connecting_only_session
  (env : Env) (name url : string) (timeout grace_period extended_check : Z) :
  (exists (fl1 : Flags) (w1 : World) (fl : Flags) (w2 : World),
      main_loop env (fuel_for timeout) test_channel_success_keywords
                test_channel_connecting_keywords 0 timeout grace_period (false, false)
                (spawned_world name) = (Ret fl1, w1)
      /\ phases env test_channel_success_keywords test_channel_connecting_keywords
                timeout grace_period extended_check (spawned_world name) = (Ret fl, w2)
      /\ (In MsgConnecting (console w2) <-> snd fl1 = true /\ fst fl1 = false))
  /\ ((forall op, raises env op = false) ->
      self_exit env = None ->
      (forall t, seen test_channel_success_keywords env t = false) ->
      0 <= extended_check ->
      (exists j : nat,
          200 * Z.of_nat j < timeout
          /\ seen test_channel_connecting_keywords env (200 * Z.of_nat j) = true) ->
      exists (w2 w' : World),
        phases env test_channel_success_keywords test_channel_connecting_keywords
               timeout grace_period extended_check (spawned_world name)
        = (Ret (false, true), w2)
        /\ console w2 = [MsgTesting name; MsgConnecting]
        /\ timeout + extended_check <= now w2 < timeout + extended_check + 400
        /\ running env w2 = true
        /\ test_channel env name url timeout grace_period extended_check initial_world
           = (Ret (name, url, false), w')
        /\ console w' = [MsgTesting name; MsgConnecting; MsgMaybe name]
        /\ now w2 <= now w' <= now w2 + 2000
        /\ (if is_windows env then
              now w' = now w2 /\ sigterm_at w' = None
              /\ killed w' = (if taskkill_ok env then Some (now w2) else None)
            else
              sigterm_at w' = Some (now w2)
              /\ (running env w' = false
                  \/ (now w' = now w2 + 2000 /\ killed w' = Some (now w2 + 2000))))
        /\ ((is_windows env = true -> taskkill_ok env = true) ->
            running env (with_now w' (now w' + Z.max 0 (sigkill_exit env))) = false)).
Proof.
  split.
  - destruct (phases_run env test_channel_success_keywords
                test_channel_connecting_keywords timeout grace_period extended_check
                (spawned_world name) (spawned_world_untouched name) eq_refl)
      as (fl & w2 & Hph & HR).
    inversion HR as [n1 fl1 Hml Hqu Hx Hc E1 E2
                    | n1 n2 fl1 s Hml Hqu Hx Hconn Hsucc t1 Hq2 Hx2 E1 E2];
      cbn [now spawned_world] in Hml; fold (spawned_world name) in Hml.
    + exists fl, w2, fl, w2. subst fl1. rewrite <- E2 at 1.
      split; [exact Hml|]. split; [exact Hph|].
      rewrite <- E2. cbn [console with_now spawned_world].
      split.
      * intros [H|[]]. discriminate H.
      * intros [H1 H2]. rewrite H1, H2 in Hc. discriminate Hc.
    + do 2 eexists. exists fl, w2.
      split; [exact Hml|]. split; [exact Hph|].
      rewrite <- E2. cbn [console with_now with_msg spawned_world app].
      split; [intros _; now split | intros _; right; now left].
  - intros Hq Hne Hns He (j & Hj & Hseenj).
    assert (Ht : 0 < timeout) by lia.
    pose proof (loop_end_bounds timeout ltac:(lia)) as B1.
    pose proof (loop_end_bounds extended_check He) as B2.
    assert (Hck : seen test_channel_connecting_keywords env (loop_end timeout - 200)
                  = true).
    { apply (seen_mono env _ (200 * Z.of_nat j)); [|exact Hseenj].
      unfold loop_end in *. lia. }
    destruct (test_channel_run env name url timeout grace_period extended_check)
      as (r & w' & Hrun & Hs).
    inversion Hs as [Hp | Hp Hth | fl w3 w4 op Hp Hth Hph HR Hstop Hop Hal
                     | fl w3 w4 Hp Hth Hph HR Hstop Hstopped Hcon Hnow];
      try (rewrite Hq in *; discriminate).
    subst r w'.
    inversion HR as [n1 fl1 Hml Hqu Hx Hc E1 E2
                    | n1 n2 fl1 s Hml Hqu Hx Hconn Hsucc t1 Hq2 Hx2 E1 E2];
      cbn [now spawned_world] in Hqu, Hx;
      destruct (main_loop_to_timeout env _ _ timeout grace_period n1 _
                  Hne Hns Ht Hqu Hx) as [Hn1 Hfl1].
    + exfalso. rewrite Hfl1 in Hc. cbn [fst snd negb] in Hc.
      rewrite Hck in Hc. discriminate Hc.
    + cbn [now spawned_world] in t1. subst t1.
      destruct (extended_loop_to_timeout env _ extended_check _ n2 s Hne Hns Hq2 Hx2)
        as [Hn2 ->].
      subst fl w3.
      set (w2 := with_now (with_msg (spawned_world name) MsgConnecting)
                          (0 + 200 * Z.of_nat n1 + 200 * Z.of_nat n2)) in *.
      assert (Hnow2 : now w2 = loop_end timeout + loop_end extended_check)
        by (cbn [now w2 with_now]; lia).
      assert (Hu2 : untouched w2) by (repeat split).
      assert (Halive : running env w2 = true).
      { rewrite running_untouched by exact Hu2.
        unfold exited_by. rewrite Hne. reflexivity. }
      exists w2, (with_msg w4 (verdict_msg (verdict (false, true)) name)).
      split; [exact Hph|]. split; [reflexivity|].
      split; [lia|].
      split; [exact Halive|]. split; [exact Hrun|].
      split; [cbn [console with_msg]; rewrite Hcon; reflexivity|].
      split; [cbn [now with_msg]; exact Hnow|].
      split.
      * clear Hrun Hstop Hcon Hnow.
        destruct Hstopped as [Hr|Hr Hw Hok|Hr Hw Hok|t Hr Hw Htt Hd|Hr Hw Hd];
          try congruence; rewrite Hw; try rewrite Hok.
        -- repeat split.
        -- repeat split.
        -- split; [reflexivity|]. left. exact Hd.
        -- split; [reflexivity|]. right. split; reflexivity.
      * intros Hok.
        exact (Stopped_gone_soon env w2 w4 Hu2 Hstopped Hok).
Qed.

Lemma connecting_only_session_witness :
  exists (w2 w' : World),
    phases env_opening test_channel_success_keywords test_channel_connecting_keywords
           4000 1000 2000 (spawned_world "n")
    = (Ret (false, true), w2)
    /\ console w2 = [MsgTesting "n"; MsgConnecting]
    /\ 4000 + 2000 <= now w2 < 4000 + 2000 + 400
    /\ running env_opening w2 = true
    /\ test_channel env_opening "n" "u" 4000 1000 2000 initial_world
       = (Ret ("n", "u", false), w')
    /\ console w' = [MsgTesting "n"; MsgConnecting; MsgMaybe "n"]
    /\ now w2 <= now w' <= now w2 + 2000
    /\ (sigterm_at w' = Some (now w2)
        /\ (running env_opening w' = false
            \/ (now w' = now w2 + 2000 /\ killed w' = Some (now w2 + 2000))))
    /\ ((is_windows env_opening = true -> taskkill_ok env_opening = true) ->
        running env_opening
                (with_now w' (now w' + Z.max 0 (sigkill_exit env_opening))) = false).
Proof.
  apply (proj2 (connecting_only_session env_opening "n" "u" 4000 1000 2000)).
  - intros op. reflexivity.
  - reflexivity.
  - intros t. unfold seen, visible, env_opening, stderr_lines.
    cbn [filter fst]. destruct (100 <=? t); reflexivity.
  - lia.
  - exists 1%nat. split; [lia | reflexivity].
Defined.

(** C5, as stated, fails: the stream has a connecting keyword and no
    success keyword, the process never exits, but the line arrives at
    3.9 s, after the last scan of the main loop at 3.8 s.  The extended
    phase is not entered and the verdict is [Failure], although the line
    is in [output_lines] at the end of the main loop. *)
Lemma late_connecting_line_is_failure :
  let r := test_channel env_late_opening "n" "u" 4000 1000 2000 initial_world in
  stderr_lines env_late_opening = [(3900, "Opening 'http://a/1' for reading")]
  /\ seen test_channel_connecting_keywords env_late_opening 4000 = true
  /\ (forall t, seen test_channel_success_keywords env_late_opening t = false)
  /\ self_exit env_late_opening = None
  /\ fst r = Ret ("n", "u", false)
  /\ console (snd r) = [MsgTesting "n"; MsgFail "n"]
  /\ sigterm_at (snd r) = Some 4000.
Proof.
  repeat split; try (vm_compute; reflexivity).
  intros t. unfold seen, visible, env_late_opening, stderr_lines.
  cbn [filter fst]. destruct (3900 <=? t); reflexivity.
Qed.

(** What holds of C6: when the console accepts every line of every
    session, a session of [test_channel] returns a value for its entry;
    an exception raised in its [try] block, such as the one of a failed
    [Popen], is caught and the value is [(name, url, False)].  So every
    future of [main] holds the record of its entry, whatever the other
    sessions did, the loop over the finished futures does not raise, and
    the log has, in the order of completion, one record for each
    entry. *)
Lemma open_console_sessions_are_isolated
  (env_of : nat -> Env) (console_of : nat -> option nat)
  (as_completed : list Future -> list Future) (lines : list string) :
  (forall i, console_of i = None) ->
  (forall l, Permutation l (as_completed l)) ->
  (forall env name url timeout grace_period extended_check,
      exists (b : bool) (w' : World),
        test_channel env name url timeout grace_period extended_check initial_world
        = (Ret (name, url, b), w'))
  /\ (forall env name url timeout grace_period extended_check,
        raises env OpPopen = true ->
        fst (test_channel env name url timeout grace_period extended_check initial_world)
        = Ret (name, url, false))
  /\ exists (st : MainState) (records : list (string * string * bool)),
       main env_of console_of as_completed (Some lines) = Ret st
       /\ submit_all env_of console_of 0 (parse_m3u_lines lines) = map Ret records
       /\ map record_entry records = parse_m3u_lines lines
       /\ Permutation records (log_file st).
Proof.
  intros Hopen Hperm. split; [|split].
  - intros env name url timeout grace_period extended_check.
    destruct (test_channel_run env name url timeout grace_period extended_check)
      as (r & w' & Hrun & Hs).
    inversion Hs; subst; do 2 eexists; exact Hrun.
  - intros env name url timeout grace_period extended_check Hp.
    unfold test_channel, bind at 1, print at 1, try_except, test_channel_try,
      bind at 1, popen, bind at 1, guard.
    cbn [prints_left initial_world console_world].
    rewrite Hp. reflexivity.
  - unfold main.
    destruct (submit_all_returns env_of console_of Hopen (parse_m3u_lines lines) 0)
      as (records & Hsub & Hent).
    rewrite Hsub.
    destruct (Permutation_map_inv _ _ (Permutation_sym (Hperm (map Ret records))))
      as (done & Hdone & Hp).
    rewrite Hdone.
    destruct (main_collect_returns done main_start) as (st & Hst & Hlog).
    exists st, records. cbn [log_file main_start app] in Hlog.
    rewrite Hlog. now repeat split.
Qed.

(** A run of [main] on two entries, with a console that accepts every
    line: the session that cannot start the prober is logged as not
    working, the other one as working. *)
Example main_example_run :
  main env_of_example (fun _ => None) (@rev Future)
       (Some ["#EXTINF:-1,One"; "http://a/1"; "#EXTINF:-1,Two"; "http://a/2"])
  = Ret (mkMainState [("Two", "http://a/2")] [("One", "http://a/1")]
                     [("Two", "http://a/2", true); ("One", "http://a/1", false)]).
Proof. vm_compute. reflexivity. Qed.

(** C6, at the input that breaks it.  [print] raises when standard
    output does not take the line (a closed or non-blocking pipe, a
    console that cannot encode it).  The first [print] of [test_channel]
    precedes the [try], so a session whose first line is rejected raises
    and returns no value.  The [print] of the handler is not protected
    either: when [Popen] raises and the console takes one line only, the
    handler raises in turn.  In [main], on a playlist of two entries,
    the first session cannot print and the second one detects a working
    stream: the future of the first session holds the exception,
    [future.result()] raises it again in the loop of [main], which ends
    there, and the outcome of the second session is not recorded. *)
Theorem print_exception_escapes_session :
  test_channel env_success_at_300 "One" "http://a/1" 4000 1000 2000
               (console_world (Some 0%nat))
  = (Raise PrintError, console_world (Some 0%nat))
  /\ test_channel env_spawn_fault "One" "http://a/1" 4000 1000 2000
                  (console_world (Some 1%nat))
     = (Raise PrintError, mkWorld 0 false None None [MsgTesting "One"] (Some 0%nat))
  /\ parse_m3u_lines playlist_example = [("One", "http://a/1"); ("Two", "http://a/2")]
  /\ submit_all (fun _ => env_success_at_300) console_of_example 0
                (parse_m3u_lines playlist_example)
     = [Raise PrintError; Ret ("Two", "http://a/2", true)]
  /\ main (fun _ => env_success_at_300) console_of_example (fun l => l)
          (Some playlist_example)
     = Raise PrintError
  /\ main (fun _ => env_success_at_300) console_of_example (@rev Future)
          (Some playlist_example)
     = Raise PrintError.
Proof. vm_compute. repeat split. Qed.

(* ===================================================================== *)
(** ** The playlist parser: further properties *)
(* ===================================================================== *)

Section StripFacts.

Lemma lstrip_all_space (s : string) : all_space s = true -> PyStr.lstrip s = EmptyString.
Proof.
  unfold all_space. induction s as [|c s IH]; cbn [all_chars PyStr.lstrip]; [reflexivity|].
  intros H. apply andb_true_iff in H as [Hc Hs]. rewrite Hc. exact (IH Hs).
Qed.

Lemma rstrip_all_space (s : string) : all_space s = true -> PyStr.rstrip s = EmptyString.
Proof.
  unfold all_space. induction s as [|c s IH]; cbn [all_chars PyStr.rstrip]; [reflexivity|].
  intros H. apply andb_true_iff in H as [Hc Hs]. now rewrite (IH Hs), Hc.
Qed.

Lemma lstrip_app_space (a s : string) :
  all_space a = true -> PyStr.lstrip (a ++ s) = PyStr.lstrip s.
Proof.
  unfold all_space. induction a as [|c a IH]; cbn [all_chars PyStr.lstrip append]; [reflexivity|].
  intros H. apply andb_true_iff in H as [Hc Ha]. rewrite Hc. exact (IH Ha).
Qed.

Lemma rstrip_app_space (s b : string) :
  all_space b = true -> PyStr.rstrip (s ++ b) = PyStr.rstrip s.
Proof.
  intros Hb. induction s as [|c s IH]; cbn [PyStr.rstrip append].
  - exact (rstrip_all_space _ Hb).
  - now rewrite IH.
Qed.

(** Whitespace around a string does not change what [strip] returns. *)
Lemma strip_padded (l l' : string) : padded l l' -> PyStr.strip l' = PyStr.strip l.
Proof.
  intros (a & b & Ha & Hb & ->). unfold PyStr.strip.
  rewrite (lstrip_app_space _ _ Ha).
  induction l as [|c l IH]; cbn [PyStr.lstrip append].
  - now rewrite (lstrip_all_space _ Hb).
  - destruct (PyStr.isspace c); [exact IH|].
    exact (rstrip_app_space (String c l) b Hb).
Qed.

(** What [lstrip] returns is empty or starts with a character that is
    not whitespace. *)
Lemma lstrip_head (s : string) :
  match PyStr.lstrip s with
  | EmptyString => True
  | String c _ => PyStr.isspace c = false
  end.
Proof.
  induction s as [|c s IH]; cbn [PyStr.lstrip]; [exact I|].
  destruct (PyStr.isspace c) eqn:E; [exact IH | exact E].
Qed.

(** [rstrip] keeps a first character that is not whitespace. *)
Lemma rstrip_head (c : ascii) (s : string) :
  PyStr.isspace c = false ->
  exists r : string, PyStr.rstrip (String c s) = String c r.
Proof.
  intros Hc. cbn [PyStr.rstrip]. destruct (PyStr.rstrip s) as [|d r].
  - rewrite Hc. now exists EmptyString.
  - now exists (String d r).
Qed.

Lemma rstrip_idempotent (s : string) : PyStr.rstrip (PyStr.rstrip s) = PyStr.rstrip s.
Proof.
  induction s as [|c s IH]; cbn [PyStr.rstrip]; [reflexivity|].
  destruct (PyStr.rstrip s) as [|d r] eqn:E.
  - destruct (PyStr.isspace c) eqn:Hc; cbn [PyStr.rstrip]; [reflexivity|].
    now rewrite Hc.
  - cbn [PyStr.rstrip] in *. now rewrite IH.
Qed.

Lemma strip_idempotent (s : string) : PyStr.strip (PyStr.strip s) = PyStr.strip s.
Proof.
  unfold PyStr.strip. pose proof (lstrip_head s) as Hh.
  destruct (PyStr.lstrip s) as [|c t]; [reflexivity|].
  destruct (rstrip_head c t Hh) as (r & Hr). rewrite Hr.
  cbn [PyStr.lstrip]. rewrite Hh, <- Hr. apply rstrip_idempotent.
Qed.

End StripFacts.

Section ParserProperties.

Lemma extinf_not_url (l : string) :
  is_extinf_line l = true -> is_url_line l = false.
Proof.
  intros H. destruct (is_url_line l) eqn:E; [|reflexivity].
  rewrite (url_not_extinf _ E) in H. discriminate.
Qed.

(** The three cases of one iteration of the parser. *)
Lemma parse_step_cases (n : string) (es : list Entry) (l : string) :
  (is_extinf_line l = true /\ is_url_line l = false
   /\ snd (parse_step (n, es) l) = es
   /\ (fst (parse_step (n, es) l) = n
       \/ exists g, PyStr.search_comma_group (PyStr.strip l) = Some g
                    /\ fst (parse_step (n, es) l) = PyStr.strip g))
  \/ (is_extinf_line l = false /\ is_url_line l = true
      /\ parse_step (n, es) l = (n, (es ++ [(n, PyStr.strip l)])%list))
  \/ (is_extinf_line l = false /\ is_url_line l = false
      /\ parse_step (n, es) l = (n, es)).
Proof.
  unfold parse_step.
  destruct (is_extinf_line l) eqn:He.
  - left. pose proof (extinf_not_url _ He) as Hu.
    unfold is_extinf_line in He. rewrite He.
    split; [reflexivity|]. split; [exact Hu|].
    destruct (PyStr.search_comma_group (PyStr.strip l)) as [g|]; cbn [fst snd].
    + split; [reflexivity|]. right. now exists g.
    + split; [reflexivity|]. now left.
  - right. unfold is_extinf_line in He. rewrite He.
    destruct (is_url_line l) eqn:Hu; unfold is_url_line in Hu; rewrite Hu.
    + left. now repeat split.
    + right. now repeat split.
Qed.

(** The entries found so far are kept, and what the loop adds does not
    depend on them. *)
Lemma parse_loop_entries (lines : list string) : forall (n : string) (es : list Entry),
  parse_loop (n, es) lines
  = (fst (parse_loop (n, []) lines), (es ++ snd (parse_loop (n, []) lines))%list).
Proof.
  induction lines as [|l lines IH]; intros n es.
  - cbn. now rewrite app_nil_r.
  - rewrite !parse_loop_cons.
    destruct (parse_step_cases n es l)
      as [(He & Hu & Hs & Hn) | [(He & Hu & E) | (He & Hu & E)]];
      destruct (parse_step_cases n [] l)
        as [(He' & Hu' & Hs' & Hn') | [(He' & Hu' & E') | (He' & Hu' & E')]];
      try congruence;
      try (rewrite E, E'; apply IH).
    + destruct (parse_step (n, es) l) as [n1 es1] eqn:E1.
      destruct (parse_step (n, []) l) as [n2 es2] eqn:E2.
      cbn [fst snd] in *. subst es1 es2.
      assert (n1 = n2).
      { unfold parse_step in E1, E2.
        destruct (PyStr.startswith (PyStr.strip l) "#EXTINF:");
          [|destruct (PyStr.startswith (PyStr.strip l) "http")];
          try destruct (PyStr.search_comma_group (PyStr.strip l)); congruence. }
      subst n2. apply IH.
    + rewrite E, E'. cbn [app].
      rewrite (IH n (es ++ [(n, PyStr.strip l)])%list), (IH n [(n, PyStr.strip l)]).
      cbn [fst snd]. now rewrite <- app_assoc.
Qed.

(** X1.  The URLs of the entries are the URL lines of the playlist,
    stripped, in file order: every line that starts with [http] gives
    one entry and no other line gives any. *)
Theorem parse_m3u_lines_urls (lines : list string) :
  map snd (parse_m3u_lines lines) = map PyStr.strip (filter is_url_line lines)
  /\ List.length (parse_m3u_lines lines) = List.length (filter is_url_line lines).
Proof.
  assert (H : forall n es,
             map snd (snd (parse_loop (n, es) lines))
             = (map snd es ++ map PyStr.strip (filter is_url_line lines))%list).
  { induction lines as [|l lines IH]; intros n es.
    - cbn. now rewrite app_nil_r.
    - rewrite parse_loop_cons. cbn [filter].
      destruct (parse_step_cases n es l)
        as [(_ & Hu & Hs & _) | [(_ & Hu & E) | (_ & Hu & E)]]; rewrite Hu.
      + destruct (parse_step (n, es) l) as [n1 es1]. cbn [snd] in Hs. subst es1.
        apply IH.
      + rewrite E, IH, map_app, <- app_assoc. reflexivity.
      + rewrite E. apply IH. }
  assert (Hm : map snd (parse_m3u_lines lines)
               = map PyStr.strip (filter is_url_line lines)) by apply (H "Unknown" []).
  split; [exact Hm|].
  apply (f_equal (@List.length string)) in Hm. rewrite !length_map in Hm. exact Hm.
Qed.

(** X2.  Parsing two playlists one after the other: the entries of the
    first, then those of the second read with the name that the first
    leaves as the current name. *)
Theorem parse_m3u_lines_app (l1 l2 : list string) :
  parse_m3u_lines (l1 ++ l2)
  = (parse_m3u_lines l1
     ++ snd (parse_loop (current_name_after l1, []) l2))%list.
Proof.
  unfold parse_m3u_lines, current_name_after.
  rewrite parse_loop_app.
  destruct (parse_loop ("Unknown", []) l1) as [n es].
  rewrite parse_loop_entries. reflexivity.
Qed.

(** X3.  Whitespace before and after a line (spaces, tabs, CR, LF) has
    no effect on the result. *)
Theorem parse_m3u_lines_padding (lines lines' : list string) :
  Forall2 padded lines lines' ->
  parse_m3u_lines lines' = parse_m3u_lines lines.
Proof.
  intros H. unfold parse_m3u_lines. generalize ("Unknown", @nil Entry).
  induction H as [|l l' lines lines' Hp _ IH]; intros st; [reflexivity|].
  rewrite !parse_loop_cons.
  assert (Hs : parse_step st l' = parse_step st l)
    by (unfold parse_step; now rewrite (strip_padded _ _ Hp)).
  rewrite Hs. apply IH.
Qed.

Lemma parse_m3u_lines_padding_witness :
  parse_m3u_lines [" #EXTINF:-1,One" ++ String "013" LF; String "009" "http://a/1  "]
  = parse_m3u_lines ["#EXTINF:-1,One"; "http://a/1"].
Proof.
  apply parse_m3u_lines_padding.
  constructor; [|constructor; [|constructor]].
  - exists " ", (String "013" LF). now repeat split.
  - exists (String "009" EmptyString), "  ". now repeat split.
Defined.

(** X4.  No entry has whitespace around its name or its URL, and every
    URL starts with [http]. *)
Theorem parse_m3u_lines_stripped (lines : list string) :
  Forall (fun e : Entry =>
            PyStr.strip (fst e) = fst e
            /\ PyStr.strip (snd e) = snd e
            /\ PyStr.startswith (snd e) "http" = true)
         (parse_m3u_lines lines).
Proof.
  set (P := fun e : Entry =>
              PyStr.strip (fst e) = fst e /\ PyStr.strip (snd e) = snd e
              /\ PyStr.startswith (snd e) "http" = true).
  assert (H : forall n es,
             PyStr.strip n = n -> Forall P es ->
             Forall P (snd (parse_loop (n, es) lines))).
  { induction lines as [|l lines IH]; intros n es Hn Hes; [exact Hes|].
    rewrite parse_loop_cons.
    destruct (parse_step_cases n es l)
      as [(_ & _ & Hs & Hname) | [(_ & Hu & E) | (_ & _ & E)]].
    - destruct (parse_step (n, es) l) as [n1 es1]. cbn [fst snd] in *. subst es1.
      apply IH; [|exact Hes].
      destruct Hname as [->|(g & _ & ->)]; [exact Hn | apply strip_idempotent].
    - rewrite E. apply IH; [exact Hn|].
      apply Forall_app. split; [exact Hes|].
      constructor; [|constructor].
      unfold P. cbn [fst snd]. split; [exact Hn|].
      split; [apply strip_idempotent | exact Hu].
    - rewrite E. now apply IH. }
  apply H; [reflexivity | constructor].
Qed.

(** X6.  The lines that start with neither [#EXTINF:] nor [http] (the
    [#EXTM3U] header, comments, blank lines) can be removed without
    changing the result. *)
Theorem parse_m3u_lines_skips (lines : list string) :
  parse_m3u_lines (filter relevant lines) = parse_m3u_lines lines.
Proof. unfold parse_m3u_lines. now rewrite parse_loop_filter. Qed.

End ParserProperties.

Section RegexProperties.

Lemma str_app_assoc (a b c : string) : (a ++ b) ++ c = a ++ (b ++ c).
Proof. induction a as [|x a IH]; cbn [append]; [reflexivity | now rewrite IH]. Qed.

Lemma comma_then_dot_nil : ~ comma_then_dot EmptyString.
Proof. intros (pre & c & rest & E & _). destruct pre; discriminate E. Qed.

Lemma comma_then_dot_cons (c : ascii) (s : string) :
  comma_then_dot (String c s)
  <-> (c = ","%char /\ exists d r, s = String d r /\ PyStr.is_dot d = true)
      \/ comma_then_dot s.
Proof.
  split.
  - intros (pre & d & rest & E & Hd). destruct pre as [|x pre]; cbn [append] in E.
    + injection E as -> ->. left. split; [reflexivity|]. now exists d, rest.
    + injection E as -> ->. right. now exists pre, d, rest.
  - intros [(-> & d & r & -> & Hd) | (pre & d & rest & -> & Hd)].
    + now exists EmptyString, d, r.
    + now exists (String c pre), d, rest.
Qed.

(** The greedy [.+] takes the characters up to the end of the line. *)
Lemma dot_run_split (s : string) :
  exists rest : string,
    s = PyStr.dot_run s ++ rest
    /\ no_LF (PyStr.dot_run s) = true
    /\ (rest = EmptyString \/ exists r, rest = LF ++ r).
Proof.
  induction s as [|c s (rest & E & Hn & Hr)]; cbn [PyStr.dot_run].
  - exists EmptyString. repeat split. now left.
  - destruct (PyStr.is_dot c) eqn:Hc.
    + exists rest. cbn [append]. rewrite <- E. split; [reflexivity|].
      split; [|exact Hr]. unfold no_LF in *. cbn [all_chars]. now rewrite Hc, Hn.
    + exists (String c s). split; [reflexivity|]. split; [reflexivity|].
      right. exists s. unfold PyStr.is_dot in Hc. apply negb_false_iff in Hc.
      apply Ascii.eqb_eq in Hc. now subst c.
Qed.

Lemma LF_not_dot (d : ascii) (r x : string) :
  String d r = LF ++ x -> PyStr.is_dot d = true -> False.
Proof. cbn. intros E. injection E as -> _. discriminate. Qed.

(** X7.  What [re.search(r",(.+)", s)] finds.  There is no match exactly
    when [s] has no comma followed by a character other than LF (so a
    comma at the very end does not count).  Otherwise the match starts
    at the leftmost such comma, and the group is what follows it up to
    the end of the line: it is not empty, has no LF, and is followed by
    LF or by nothing. *)
Theorem search_comma_group_spec (s : string) :
  match PyStr.search_comma_group s with
  | None => ~ comma_then_dot s
  | Some g =>
      exists pre rest : string,
        s = pre ++ "," ++ g ++ rest
        /\ g <> EmptyString /\ no_LF g = true
        /\ (rest = EmptyString \/ exists r, rest = LF ++ r)
        /\ ~ comma_then_dot (pre ++ ",")
  end.
Proof.
  induction s as [|c s IH]; cbn [PyStr.search_comma_group].
  - exact comma_then_dot_nil.
  - destruct (c =? ",")%char eqn:Hc.
    + apply Ascii.eqb_eq in Hc. subst c.
      destruct (dot_run_split s) as (rest & E & Hn & Hr).
      destruct (PyStr.dot_run s) as [|d g] eqn:Hrun.
      * cbn [append] in E. subst rest.
        assert (Hhead : forall d r, s = String d r -> PyStr.is_dot d = true -> False).
        { intros d r Es Hd. destruct Hr as [->|(x & ->)]; [discriminate Es|].
          exact (LF_not_dot _ _ _ (eq_sym Es) Hd). }
        destruct (PyStr.search_comma_group s) as [g|].
        -- destruct IH as (pre & rest & Es & Hg & Hlf & Hrest & Hleft).
           exists (String "," pre), rest.
           split; [now rewrite Es|]. repeat split; try assumption.
           change (String "," pre ++ ",") with (String "," (pre ++ ",")).
           intros Hm. apply comma_then_dot_cons in Hm as [(_ & d & r & Ed & Hd) | Hm];
             [|exact (Hleft Hm)].
           apply (Hhead d (r ++ g ++ rest)); [|exact Hd].
           rewrite Es, <- str_app_assoc, Ed. reflexivity.
        -- intros Hm. apply comma_then_dot_cons in Hm as [(_ & d & r & Ed & Hd) | Hm];
             [exact (Hhead d r Ed Hd) | exact (IH Hm)].
      * exists EmptyString, rest.
        split; [now rewrite E|]. split; [discriminate|]. split; [exact Hn|].
        split; [exact Hr|].
        change (EmptyString ++ ",") with (String "," EmptyString).
        intros Hm. apply comma_then_dot_cons in Hm as [(_ & d' & r & Ed & _) | Hm];
          [discriminate Ed | exact (comma_then_dot_nil Hm)].
    + apply Ascii.eqb_neq in Hc.
      destruct (PyStr.search_comma_group s) as [g|].
      * destruct IH as (pre & rest & Es & Hg & Hlf & Hrest & Hleft).
        exists (String c pre), rest.
        split; [now rewrite Es|]. repeat split; try assumption.
        change (String c pre ++ ",") with (String c (pre ++ ",")).
        intros Hm. apply comma_then_dot_cons in Hm as [(E & _) | Hm];
          [exact (Hc E) | exact (Hleft Hm)].
      * intros Hm. apply comma_then_dot_cons in Hm as [(E & _) | Hm];
          [exact (Hc E) | exact (IH Hm)].
Qed.

(** Without LF in the line, the group is the rest of the line. *)
Lemma search_comma_group_suffix (s g : string) :
  PyStr.search_comma_group s = Some g -> no_LF s = true ->
  exists pre : string, s = pre ++ g /\ g <> EmptyString.
Proof.
  unfold no_LF. induction s as [|c s IH]; cbn [PyStr.search_comma_group all_chars];
    [discriminate|].
  intros Hs Hn. apply andb_true_iff in Hn as [_ Hn].
  assert (Hrec : PyStr.search_comma_group s = Some g ->
                 exists pre, String c s = pre ++ g /\ g <> EmptyString).
  { intros H. destruct (IH H Hn) as (pre & -> & Hg). now exists (String c pre). }
  destruct (c =? ",")%char; [|exact (Hrec Hs)].
  rewrite (dot_run_no_LF s Hn) in Hs.
  destruct s as [|d s']; [exact (Hrec Hs)|].
  injection Hs as <-. exists (String c EmptyString). split; [reflexivity | discriminate].
Qed.

Lemma rstrip_suffix (a r : string) :
  PyStr.rstrip (a ++ r) = a ++ r -> r <> EmptyString -> PyStr.rstrip r = r.
Proof.
  intros H Hr. induction a as [|c a IH]; [exact H|].
  apply IH. cbn [append PyStr.rstrip] in H.
  destruct (PyStr.rstrip (a ++ r)) as [|d y] eqn:E.
  - exfalso. destruct (PyStr.isspace c); [discriminate H|].
    injection H as H. destruct a; cbn [append] in H; [now apply Hr | discriminate H].
  - now injection H.
Qed.

Lemma strip_not_empty (r : string) :
  PyStr.rstrip r = r -> r <> EmptyString -> PyStr.strip r <> EmptyString.
Proof.
  unfold PyStr.strip. induction r as [|c r IH]; intros H Hr; [now elim Hr|].
  cbn [PyStr.lstrip]. destruct (PyStr.isspace c) eqn:Hc.
  - assert (Hr' : r <> EmptyString).
    { intros ->. cbn [PyStr.rstrip] in H. rewrite Hc in H. discriminate H. }
    apply IH; [|exact Hr'].
    exact (rstrip_suffix (String c EmptyString) r H Hr').
  - rewrite H. discriminate.
Qed.

(** X5.  When no line has a line feed inside (as for the lines that
    [readlines] returns), no entry has an empty name. *)
Theorem parse_m3u_lines_names_not_empty (lines : list string) :
  Forall (fun l => no_LF (PyStr.strip l) = true) lines ->
  Forall (fun e : Entry => fst e <> EmptyString) (parse_m3u_lines lines).
Proof.
  intros Hlines.
  assert (H : forall n es,
             n <> EmptyString -> Forall (fun e : Entry => fst e <> EmptyString) es ->
             Forall (fun e : Entry => fst e <> EmptyString)
                    (snd (parse_loop (n, es) lines))).
  { induction Hlines as [|l lines Hl _ IH]; intros n es Hn Hes; [exact Hes|].
    rewrite parse_loop_cons.
    destruct (parse_step_cases n es l)
      as [(_ & _ & Hs & Hname) | [(_ & _ & E) | (_ & _ & E)]].
    - destruct (parse_step (n, es) l) as [n1 es1]. cbn [fst snd] in *. subst es1.
      apply IH; [|exact Hes].
      destruct Hname as [->|(g & Hg & ->)]; [exact Hn|].
      destruct (search_comma_group_suffix _ _ Hg Hl) as (pre & Epre & Hne).
      apply strip_not_empty; [|exact Hne].
      apply (rstrip_suffix pre g); [|exact Hne].
      rewrite <- Epre. unfold PyStr.strip. apply rstrip_idempotent.
    - rewrite E. apply IH; [exact Hn|].
      apply Forall_app. split; [exact Hes|]. now repeat constructor.
    - rewrite E. now apply IH. }
  apply H; [discriminate | constructor].
Qed.

Lemma parse_m3u_lines_names_not_empty_witness :
  Forall (fun e : Entry => fst e <> EmptyString)
         (parse_m3u_lines ["#EXTINF:-1, , x " ++ LF; "http://a/1" ++ LF;
                           "#EXTINF:0," ++ LF; "http://a/2"]).
Proof.
  apply parse_m3u_lines_names_not_empty.
  repeat constructor.
Defined.

End RegexProperties.

(* ===================================================================== *)
(** ** Probe sessions: further properties *)
(* ===================================================================== *)

Section FlagFacts.

Variable env : Env.

(** A flag that the main loop of a session returns set comes from a
    scan: at one of its polls before the timeout the process was running
    and a line with such a keyword had arrived. *)
Lemma main_loop_flag_sound (skw ckw : list string) (timeout grace_period : Z)
  (n : nat) (fl : Flags) :
  main_quiet env skw 0 timeout grace_period 0 (false, false) n ->
  main_exit env skw ckw 0 timeout grace_period 0 (false, false) n fl ->
  (fst fl = true ->
   exists j : nat, 200 * Z.of_nat j < timeout
                   /\ exited_by env (200 * Z.of_nat j) = false
                   /\ seen skw env (200 * Z.of_nat j) = true)
  /\ (snd fl = true ->
      exists j : nat, 200 * Z.of_nat j < timeout
                      /\ exited_by env (200 * Z.of_nat j) = false
                      /\ seen ckw env (200 * Z.of_nat j) = true).
Proof.
  intros Hq Hx.
  assert (Hafter : fl = flags_after env skw ckw 0 (false, false) n ->
                   forall kw (b : bool),
                     (b = fst fl /\ kw = skw) \/ (b = snd fl /\ kw = ckw) ->
                     b = true ->
                     exists j : nat, 200 * Z.of_nat j < timeout
                                     /\ exited_by env (200 * Z.of_nat j) = false
                                     /\ seen kw env (200 * Z.of_nat j) = true).
  { intros -> kw b Hb Hbt. destruct n as [|m].
    - cbn [flags_after fst snd] in Hb. destruct Hb as [[-> _]|[-> _]]; discriminate Hbt.
    - destruct (Hq m (Nat.lt_succ_diag_r m)) as [Hlt Hnb].
      unfold main_break in Hnb. apply orb_false_iff in Hnb as [Hal _].
      rewrite Z.add_0_l in Hal.
      exists m. split; [lia|]. split; [exact Hal|].
      cbn [flags_after] in Hb. rewrite scan_main_flags in Hb. cbn [fst snd orb] in Hb.
      rewrite Z.add_0_l in Hb.
      destruct Hb as [[-> ->]|[-> ->]]; exact Hbt. }
  unfold main_exit in Hx. cbv zeta in Hx. rewrite Z.add_0_l, Z.sub_0_r in Hx.
  destruct Hx as [(_ & H2) | [(_ & _ & H3) | (H1 & H2 & H3 & _)]].
  - split; intros Hf; [apply (Hafter H2 skw (fst fl)) | apply (Hafter H2 ckw (snd fl))];
      auto.
  - split; intros Hf; [apply (Hafter H3 skw (fst fl)) | apply (Hafter H3 ckw (snd fl))];
      auto.
  - rewrite H3, scan_main_flags. cbn [fst snd orb].
    split; intros Hf; exists n; auto.
Qed.

(** A loop bounded by [d] sleeps no longer than to [loop_end d]. *)
Lemma quiet_ticks_bound (d : Z) (n : nat) :
  (forall j : nat, (j < n)%nat -> 200 * Z.of_nat j < d) ->
  0 <= 200 * Z.of_nat n <= loop_end d.
Proof.
  intros Hq. unfold loop_end. destruct n as [|m]; [lia|].
  specialize (Hq m (Nat.lt_succ_diag_r m)).
  assert (Z.of_nat (S m) <= (d + 199) / 200) by (apply Z.div_le_lower_bound; lia).
  lia.
Qed.

(** The polling of [phases] ends by [loop_end timeout + loop_end
    extended_check], and [phases] prints at most the message of the
    extended phase. *)
Lemma PhasesRun_bound (skw ckw : list string)
  (timeout grace_period extended_check : Z) (w : World) (fl : Flags) (w' : World) :
  PhasesRun env skw ckw timeout grace_period extended_check w fl w' ->
  now w = 0 ->
  0 <= now w' <= loop_end timeout + loop_end extended_check.
Proof.
  intros Hrun H0.
  assert (0 <= loop_end extended_check) by (unfold loop_end; lia).
  inversion Hrun as [n1 fl1 _ Hq _ _ E1 E2 | n1 n2 fl1 s _ Hq _ _ _ t1 Hq2 _ E1 E2];
    cbn [now with_now with_msg]; rewrite H0 in *.
  - assert (0 <= 200 * Z.of_nat n1 <= loop_end timeout); [|lia].
    apply quiet_ticks_bound. intros j Hj. destruct (Hq j Hj). lia.
  - assert (0 <= 200 * Z.of_nat n1 <= loop_end timeout).
    { apply quiet_ticks_bound. intros j Hj. destruct (Hq j Hj). lia. }
    assert (0 <= 200 * Z.of_nat n2 <= loop_end extended_check).
    { apply quiet_ticks_bound. intros j Hj. destruct (Hq2 j Hj). subst t1. lia. }
    subst t1. lia.
Qed.

End FlagFacts.

Section SessionProperties.


Lemma loop_end_below (d : Z) : 0 <= loop_end d < Z.max 0 d + 200.
Proof.
  destruct (Z.le_gt_cases 0 d) as [Hd|Hd].
  - pose proof (loop_end_bounds d Hd). lia.
  - unfold loop_end.
    assert ((d + 199) / 200 < 1) by (apply Z.div_lt_upper_bound; lia). lia.
Qed.

(** The world in which the termination block of a session ends. *)
Lemma stop_process_world (env : Env) (w3 w4 : World) (r : Res unit) :
  untouched w3 -> stop_process env w3 = (r, w4) ->
  console w4 = console w3 /\ now w3 <= now w4 <= now w3 + 2000.
Proof.
  intros Hu Hstop.
  destruct (stop_process_run env w3 Hu)
    as (r' & w4' & Hstop' & Hcon & _ & _ & Hnow & _).
  rewrite Hstop in Hstop'. injection Hstop' as <- <-. now split.
Qed.

(** X8.  When no call raises after [Popen] and, on Windows, taskkill
    reports success, [test_channel] does not leave its subprocess behind:
    the subprocess is gone [sigkill_exit] after the session has returned.
    At the return itself it may still be running, and then SIGKILL (or
    taskkill /F) has just been delivered to it: [process.kill()] is the
    last call of the termination block and nothing waits for its effect.
    (When [Popen] itself raises there is no subprocess.) *)
Theorem test_channel_stops_process
  (env : Env) (name url : string) (timeout grace_period extended_check : Z) :
  (forall op, op <> OpPopen -> raises env op = false) ->
  (is_windows env = true -> taskkill_ok env = true) ->
  let w' :=
    snd (test_channel env name url timeout grace_period extended_check initial_world) in
  running env (with_now w' (now w' + Z.max 0 (sigkill_exit env))) = false
  /\ (running env w' = true -> killed w' = Some (now w')).
Proof.
  intros Hq Hok.
  destruct (test_channel_run env name url timeout grace_period extended_check)
    as (r & w' & Hrun & Hs).
  rewrite Hrun. cbn [snd].
  destruct Hs as [Hp | Hp Hth | fl w3 w4 op Hp Hth Hph HR Hstop Hop Hal
                  | fl w3 w4 Hp Hth Hph HR Hstop Hstopped Hcon Hnow].
  - split; [reflexivity | discriminate].
  - rewrite Hq in Hth by discriminate. discriminate Hth.
  - destruct (Op_eq_dec_popen op) as [->|Hne]; [congruence|].
    rewrite (Hq op Hne) in Hop. discriminate Hop.
  - destruct (PhasesRun_world env _ _ _ _ _ _ _ _ HR (spawned_world_untouched name))
      as (Hu3 & _ & _).
    split.
    + exact (Stopped_gone_soon env w3 w4 Hu3 Hstopped Hok).
    + intros Hrunning.
      destruct (Stopped_cases env w3 w4 Hu3 Hstopped) as [Hd|[Hk|(Hw & Hf & _)]].
      * change (running env w4 = true) in Hrunning. congruence.
      * exact Hk.
      * rewrite (Hok Hw) in Hf. discriminate Hf.
Qed.

Lemma test_channel_stops_process_witness :
  let w' := snd (test_channel env_opening "n" "u" 4000 1000 2000 initial_world) in
  running env_opening (with_now w' (now w' + Z.max 0 (sigkill_exit env_opening)))
  = false
  /\ (running env_opening w' = true -> killed w' = Some (now w')).
Proof.
  apply test_channel_stops_process.
  - intros op _. reflexivity.
  - intros H. discriminate H.
Defined.

(** The session of the witness returns while its subprocess, which has
    ignored SIGTERM and has just been sent SIGKILL, is still running. *)
Example killed_process_runs_at_return :
  let w' := snd (test_channel env_opening "n" "u" 4000 1000 2000 initial_world) in
  running env_opening w' = true /\ killed w' = Some 8000 /\ now w' = 8000.
Proof. vm_compute. repeat split. Qed.

(** On Windows, when taskkill returns a status other than 0, the session
    returns its verdict and the subprocess runs on, with no signal sent:
    the status is not looked at. *)
Example refused_taskkill_leaves_process :
  let r := test_channel env_taskkill_refused "n" "u" 4000 1000 2000 initial_world in
  fst r = Ret ("n", "u", false)
  /\ console (snd r) = [MsgTesting "n"; MsgFail "n"]
  /\ killed (snd r) = None
  /\ forall t : Z, running env_taskkill_refused (with_now (snd r) t) = true.
Proof. vm_compute. repeat split. Qed.

(** X9.  In a session where no call raises, a line that has arrived by
    a poll of the main loop (a tick of 200 ms before the timeout) at
    which the prober is still running is not missed: with a success
    keyword [test_channel] returns [True] and prints the success, with a
    connecting keyword the final message is not the one of a failure. *)
Theorem live_poll_keyword_is_reported
  (env : Env) (name url : string) (timeout grace_period extended_check : Z) (j : nat) :
  (forall op, raises env op = false) ->
  200 * Z.of_nat j < timeout ->
  exited_by env (200 * Z.of_nat j) = false ->
  exists (b : bool) (w' : World),
    test_channel env name url timeout grace_period extended_check initial_world
    = (Ret (name, url, b), w')
    /\ (seen test_channel_success_keywords env (200 * Z.of_nat j) = true ->
        b = true /\ last (console w') (MsgTesting name) = MsgSuccess name)
    /\ (seen test_channel_connecting_keywords env (200 * Z.of_nat j) = true ->
        last (console w') (MsgTesting name) <> MsgFail name).
Proof.
  intros Hq Hj Halive.
  destruct (test_channel_run env name url timeout grace_period extended_check)
    as (r & w' & Hrun & Hs).
  destruct Hs as [Hp | Hp Hth | fl w3 w4 op Hp Hth Hph HR Hstop Hop Hal
                  | fl w3 w4 Hp Hth Hph HR Hstop Hstopped Hcon Hnow];
    try (rewrite Hq in *; discriminate).
  do 2 eexists. split; [exact Hrun|].
  cbn [console with_msg]. rewrite last_last.
  destruct HR as [n1 fl1 Hml Hqu Hx Hc
                 | n1 n2 fl1 s Hml Hqu Hx Hconn Hsucc t1 Hq2 Hx2];
    cbn [now spawned_world] in Hqu, Hx;
    destruct (main_loop_detects env _ _ timeout grace_period n1 _ j Hqu Hx Hj Halive)
      as [Hs1 Hc1].
  - split.
    + intros Hseen. unfold verdict. rewrite (Hs1 Hseen). now split.
    + intros Hseen. unfold verdict.
      destruct (Hc1 Hseen) as [->| ->]; [discriminate|].
      destruct (fst fl1); discriminate.
  - split.
    + intros Hseen. rewrite (Hs1 Hseen) in Hsucc. discriminate.
    + intros _. unfold verdict. cbn [fst snd]. destruct s; discriminate.
Qed.

Lemma live_poll_keyword_is_reported_witness :
  exists (b : bool) (w' : World),
    test_channel env_success_at_300 "n" "u" 4000 1000 2000 initial_world
    = (Ret ("n", "u", b), w')
    /\ (seen test_channel_success_keywords env_success_at_300 (200 * Z.of_nat 2) = true ->
        b = true /\ last (console w') (MsgTesting "n") = MsgSuccess "n")
    /\ (seen test_channel_connecting_keywords env_success_at_300 (200 * Z.of_nat 2) = true ->
        last (console w') (MsgTesting "n") <> MsgFail "n").
Proof.
  apply (live_poll_keyword_is_reported env_success_at_300 "n" "u" 4000 1000 2000 2).
  - intros op. reflexivity.
  - reflexivity.
  - reflexivity.
Defined.

(** X10.  [test_channel] returns [True] only if a line with a success
    keyword has arrived while the prober was still running. *)
Theorem success_needs_success_line
  (env : Env) (name url : string) (timeout grace_period extended_check : Z)
  (w' : World) :
  test_channel env name url timeout grace_period extended_check initial_world
  = (Ret (name, url, true), w') ->
  exists (a : Z) (line : string),
    In (a, line) (stderr_lines env)
    /\ PyStr.any_in test_channel_success_keywords line = true
    /\ exited_by env a = false.
Proof.
  intros Hres.
  assert (Hline : forall t, exited_by env t = false ->
                            seen test_channel_success_keywords env t = true ->
                            exists (a : Z) (line : string),
                              In (a, line) (stderr_lines env)
                              /\ PyStr.any_in test_channel_success_keywords line = true
                              /\ exited_by env a = false).
  { intros t Hal Hseen. unfold seen, visible in Hseen.
    apply existsb_exists in Hseen as (line & Hin & Hkw).
    apply in_map_iff in Hin as ([a l] & E & Hin). cbn [snd] in E. subst l.
    apply filter_In in Hin as [Hin Hle]. cbn [fst] in Hle. apply Z.leb_le in Hle.
    exists a, line. split; [exact Hin|]. split; [exact Hkw|].
    destruct (exited_by env a) eqn:Ea; [|reflexivity].
    rewrite (exited_by_mono env a t Hle Ea) in Hal. discriminate. }
  destruct (test_channel_run env name url timeout grace_period extended_check)
    as (r & w'' & Hrun & Hs).
  rewrite Hres in Hrun. injection Hrun as Er _. revert Er.
  destruct Hs as [Hp | Hp Hth | fl w3 w4 op Hp Hth Hph HR Hstop Hop Hal
                  | fl w3 w4 Hp Hth Hph HR Hstop Hstopped Hcon Hnow];
    intros Er; try discriminate Er.
  injection Er as Efl. symmetry in Efl.
  destruct HR as [n1 fl1 Hml Hqu Hx Hc
                 | n1 n2 fl1 s Hml Hqu Hx Hconn Hsucc t1 Hq2 Hx2];
    cbn [now spawned_world] in Hqu, Hx.
  - destruct (main_loop_flag_sound env _ _ _ _ _ _ Hqu Hx) as [Hs1 _].
    destruct (Hs1 Efl) as (j & _ & Hal & Hseen).
    exact (Hline _ Hal Hseen).
  - cbn [fst] in Efl. subst s.
    unfold extended_exit in Hx2. cbv zeta in Hx2.
    destruct Hx2 as [(_ & H2) | [(_ & _ & H3) | (_ & Hal & Hseen & _)]];
      try discriminate.
    rewrite orb_false_r in Hseen. exact (Hline _ Hal Hseen).
Qed.

Lemma success_needs_success_line_witness :
  exists (a : Z) (line : string),
    In (a, line) (stderr_lines env_success_at_300)
    /\ PyStr.any_in test_channel_success_keywords line = true
    /\ exited_by env_success_at_300 a = false.
Proof.
  apply (success_needs_success_line env_success_at_300 "n" "u" 4000 1000 2000
           (mkWorld 1050 true (Some 1000) None [MsgTesting "n"; MsgSuccess "n"] None)).
  vm_compute. reflexivity.
Defined.

(** X11.  A session of [test_channel] is over within the two polling
    phases, each rounded up to a tick of 200 ms, and the 2 s that the
    termination block may wait: less than [timeout + extended_check]
    plus 2.4 s. *)
Theorem session_duration_bound
  (env : Env) (name url : string) (timeout grace_period extended_check : Z) :
  let w' := snd (test_channel env name url timeout grace_period extended_check
                              initial_world) in
  0 <= now w' <= loop_end timeout + loop_end extended_check + 2000
  /\ now w' < Z.max 0 timeout + Z.max 0 extended_check + 2400.
Proof.
  cbv zeta.
  pose proof (loop_end_below timeout) as B1.
  pose proof (loop_end_below extended_check) as B2.
  destruct (test_channel_run env name url timeout grace_period extended_check)
    as (r & w' & Hrun & Hs).
  rewrite Hrun. cbn [snd].
  inversion Hs as [Hp | Hp Hth | fl w3 w4 op Hp Hth Hph HR Hstop Hop Hal
                   | fl w3 w4 Hp Hth Hph HR Hstop Hstopped Hcon Hnow];
    cbn [now with_msg initial_world console_world spawned_world]; try lia.
  - pose proof (PhasesRun_bound env _ _ _ _ _ _ _ _ HR eq_refl) as B.
    destruct (PhasesRun_world env _ _ _ _ _ _ _ _ HR (spawned_world_untouched name))
      as (Hu3 & _ & _).
    destruct (stop_process_world env w3 w4 _ Hu3 Hstop) as [_ Hnow]. lia.
  - pose proof (PhasesRun_bound env _ _ _ _ _ _ _ _ HR eq_refl) as B. lia.
Qed.





End SessionProperties.

Section ConsoleProperties.



End ConsoleProperties.

(* ===================================================================== *)
(** ** The sessions of [check_stream_status] *)
(* ===================================================================== *)

Section CheckProperties.

Variable env : Env.
Variables name url : string.
Variables timeout grace_period extended_check : Z.

Lemma spawned_world_url_untouched : untouched (spawned_world_url name url).
Proof. repeat split. Qed.

(** With a console that accepts every line, a session of
    [check_stream_status] returns a boolean: [False] when a call raises,
    and otherwise the flag [success_detected] of the phases, after the
    termination block has returned. *)
Lemma check_stream_status_run :
  exists (b : bool) (w' : World),
    check_stream_status env name url timeout grace_period extended_check initial_world
    = (Ret b, w')
    /\ ((b = false /\ exists op, raises env op = true
                                /\ (op = OpPopen -> spawned w' = false)
                                /\ last (console w') MsgConnecting
                                   = MsgError name (PyException op))
        \/ (exists (fl : Flags) (w3 w4 : World),
               raises env OpPopen = false /\ raises env OpThreadStart = false
               /\ phases env check_stream_status_success_keywords
                         check_stream_status_connecting_keywords
                         timeout grace_period extended_check
                         (spawned_world_url name url) = (Ret fl, w3)
               /\ PhasesRun env check_stream_status_success_keywords
                            check_stream_status_connecting_keywords
                            timeout grace_period extended_check
                            (spawned_world_url name url) fl w3
               /\ stop_process env w3 = (Ret tt, w4)
               /\ Stopped env w3 w4
               /\ b = fst fl
               /\ w' = with_msg w4 (verdict_msg (verdict fl) name))).
Proof.
  unfold check_stream_status, check_stream_status_try, try_except.
  unfold bind at 1. unfold print at 1.
  cbn [now spawned sigterm_at killed console prints_left initial_world
       console_world app].
  unfold bind at 1, popen, bind at 1, guard.
  destruct (raises env OpPopen) eqn:Hp.
  { do 2 eexists. split; [reflexivity|]. left. split; [reflexivity|].
    exists OpPopen. now repeat split. }
  unfold ret at 1. cbn [now spawned sigterm_at killed console prints_left].
  fold (spawned_world_url name url).
  unfold bind at 1, thread_start, guard.
  destruct (raises env OpThreadStart) eqn:Ht.
  { do 2 eexists. split; [reflexivity|]. left. split; [reflexivity|].
    exists OpThreadStart. split; [exact Ht|]. split; [discriminate | reflexivity]. }
  unfold ret at 1.
  assert (Ho : console_open (spawned_world_url name url)) by reflexivity.
  destruct (phases_run env check_stream_status_success_keywords
              check_stream_status_connecting_keywords
              timeout grace_period extended_check _ spawned_world_url_untouched Ho)
    as (fl & w3 & Hph & Hrun).
  unfold bind at 1. rewrite Hph.
  destruct (PhasesRun_world _ _ _ _ _ _ _ _ _ Hrun spawned_world_url_untouched)
    as (Hu3 & _ & _).
  pose proof (PhasesRun_console_open _ _ _ _ _ _ _ _ _ Hrun Ho) as Ho3.
  destruct (stop_process_run env w3 Hu3)
    as (r & w4 & Hstop & Hcon & Hpl & _ & Hnow & Hr).
  assert (Ho4 : console_open w4) by (unfold console_open; now rewrite Hpl).
  unfold bind at 1. rewrite Hstop.
  destruct r as [[]|[op|]|].
  - exists (fst fl), (with_msg w4 (verdict_msg (verdict fl) name)).
    split.
    + unfold verdict, verdict_msg.
      destruct (fst fl); [|destruct (snd fl)];
        unfold bind; rewrite (print_open _ _ Ho4); reflexivity.
    + right. exists fl, w3, w4. now repeat split.
  - destruct Hr as [Hop Halive].
    exists false, (with_msg w4 (MsgError name (PyException op))).
    split; [unfold bind; rewrite (print_open _ _ Ho4); reflexivity|].
    left. split; [reflexivity|].
    exists op. split; [exact Hop|]. split.
    + intros ->. congruence.
    + cbn [console with_msg]. apply last_last.
  - contradiction.
  - contradiction.
Qed.

End CheckProperties.

Section CompareFacts.

Variable env : Env.

Lemma seen_has_line (kw : list string) (t : Z) :
  exited_by env t = false -> seen kw env t = true ->
  exists (a : Z) (line : string),
    In (a, line) (stderr_lines env)
    /\ PyStr.any_in kw line = true
    /\ exited_by env a = false.
Proof.
  intros Hal Hseen. unfold seen, visible in Hseen.
  apply existsb_exists in Hseen as (line & Hin & Hkw).
  apply in_map_iff in Hin as ([a l] & E & Hin). cbn [snd] in E. subst l.
  apply filter_In in Hin as [Hin Hle]. cbn [fst] in Hle. apply Z.leb_le in Hle.
  exists a, line. split; [exact Hin|]. split; [exact Hkw|].
  destruct (exited_by env a) eqn:Ea; [|reflexivity].
  rewrite (exited_by_mono env a t Hle Ea) in Hal. discriminate.
Qed.

(** The flag [success_detected] that [phases] returns set comes from a
    scan made while the process was running. *)
Lemma PhasesRun_success_sound (skw ckw : list string)
  (timeout grace_period extended_check : Z) (w : World) (fl : Flags) (w' : World) :
  PhasesRun env skw ckw timeout grace_period extended_check w fl w' ->
  now w = 0 -> fst fl = true ->
  exists t : Z, exited_by env t = false /\ seen skw env t = true.
Proof.
  intros HR H0 Hfl.
  destruct HR as [n1 fl1 Hml Hqu Hx Hc | n1 n2 fl1 s Hml Hqu Hx Hconn Hsucc t1 Hq2 Hx2];
    rewrite H0 in *.
  - destruct (main_loop_flag_sound env _ _ _ _ _ _ Hqu Hx) as [Hs1 _].
    destruct (Hs1 Hfl) as (j & _ & Hal & Hseen). eauto.
  - cbn [fst] in Hfl. subst s.
    unfold extended_exit in Hx2. cbv zeta in Hx2.
    destruct Hx2 as [(_ & H2) | [(_ & _ & H3) | (_ & Hal & Hseen & _)]];
      try discriminate.
    rewrite orb_false_r in Hseen. eauto.
Qed.

Lemma any_in_incl (kw kw' : list string) (line : string) :
  incl kw kw' -> PyStr.any_in kw line = true -> PyStr.any_in kw' line = true.
Proof.
  unfold PyStr.any_in. intros Hi H.
  apply existsb_exists in H as (k & Hk & Hc).
  apply existsb_exists. exists k. split; [exact (Hi k Hk) | exact Hc].
Qed.

Lemma seen_incl (kw kw' : list string) (t : Z) :
  incl kw kw' -> seen kw env t = true -> seen kw' env t = true.
Proof.
  unfold seen. intros Hi H.
  apply existsb_exists in H as (l & Hl & Hc).
  apply existsb_exists. exists l. split; [exact Hl | exact (any_in_incl _ _ _ Hi Hc)].
Qed.

Lemma success_keywords_incl :
  incl test_channel_success_keywords check_stream_status_success_keywords.
Proof. intros k [<-|[<-|[<-|[]]]]; cbn; tauto. Qed.

Lemma main_break_false (skw : list string) (grace_period t : Z) :
  main_break env skw 0 grace_period (false, false) t = false ->
  exited_by env t = false.
Proof. unfold main_break. intros H. now apply orb_false_iff in H as [H _]. Qed.

(** Two main loops that differ only in their success keywords, the
    second having all those of the first: when the second ends without
    [success_detected], the first has made the same polls and ends with
    the same [connection_detected]. *)
Lemma main_runs_agree (skw skw' ckw : list string) (timeout grace_period : Z)
  (n n' : nat) (fl fl' : Flags) :
  incl skw skw' ->
  main_quiet env skw 0 timeout grace_period 0 (false, false) n ->
  main_exit env skw ckw 0 timeout grace_period 0 (false, false) n fl ->
  main_quiet env skw' 0 timeout grace_period 0 (false, false) n' ->
  main_exit env skw' ckw 0 timeout grace_period 0 (false, false) n' fl' ->
  fst fl' = false ->
  n = n' /\ snd fl = snd fl'.
Proof.
  intros Hi Hq Hx Hq' Hx' Hf'.
  unfold main_exit in Hx, Hx'. cbv zeta in Hx, Hx'.
  rewrite Z.add_0_l, Z.sub_0_r in Hx, Hx'.
  assert (Hend' : (timeout <= 200 * Z.of_nat n'
                   \/ exited_by env (200 * Z.of_nat n') = true)
                  /\ fl' = flags_after env skw' ckw 0 (false, false) n').
  { destruct Hx' as [(H1 & H2) | [(_ & H2 & H3) | (_ & _ & _ & H4 & _)]];
      [now split; [left|] | now split; [right|] | congruence]. }
  destruct Hend' as [Hend' Hfl'].
  assert (Hns : forall j : nat, (j < n')%nat -> seen skw env (200 * Z.of_nat j) = false).
  { intros j Hj. destruct n' as [|m]; [lia|].
    rewrite Hfl' in Hf'. cbn [flags_after] in Hf'. rewrite scan_main_flags in Hf'.
    cbn [fst orb] in Hf'. fold (seen skw' env (0 + 200 * Z.of_nat m)) in Hf'.
    destruct (seen skw env (200 * Z.of_nat j)) eqn:E; [|reflexivity].
    apply (seen_incl _ _ _ Hi) in E.
    rewrite (seen_mono env skw' (200 * Z.of_nat j) (0 + 200 * Z.of_nat m)
                       ltac:(lia) E) in Hf'.
    discriminate. }
  assert (Hn : n = n').
  { destruct (Nat.lt_trichotomy n n') as [Hlt|[Heq|Hgt]]; [exfalso|exact Heq|exfalso].
    - destruct (Hq' n Hlt) as [Ht Hnb]. rewrite Z.add_0_l in Ht, Hnb.
      apply main_break_false in Hnb.
      destruct Hx as [(H1 & _) | [(_ & H2 & _) | (_ & _ & H3 & H4 & _)]];
        [lia | congruence |].
      rewrite H3, scan_main_flags in H4. cbn [fst orb] in H4.
      fold (seen skw env (200 * Z.of_nat n)) in H4.
      rewrite (Hns n Hlt) in H4. discriminate.
    - destruct (Hq n' Hgt) as [Ht Hnb]. rewrite Z.add_0_l in Ht, Hnb.
      apply main_break_false in Hnb.
      destruct Hend' as [H|H]; [lia | congruence]. }
  split; [exact Hn|]. subst n'.
  destruct Hx as [(_ & H2) | [(_ & _ & H3) | (H1 & H2 & _)]].
  - rewrite H2, Hfl'. destruct n; cbn [flags_after]; [reflexivity|].
    now rewrite !scan_main_flags.
  - rewrite H3, Hfl'. destruct n; cbn [flags_after]; [reflexivity|].
    now rewrite !scan_main_flags.
  - destruct Hend' as [H|H]; [lia | congruence].
Qed.

(** A success line that has arrived by a poll of the extended loop at
    which the process is running ends the loop with [success_detected]. *)
Lemma extended_loop_detects (skw : list string) (extended_check t1 : Z)
  (n : nat) (s : bool) (j : nat) :
  extended_quiet env skw t1 extended_check t1 false n ->
  extended_exit env skw t1 extended_check t1 false n s ->
  t1 + 200 * Z.of_nat j - t1 < extended_check ->
  exited_by env (t1 + 200 * Z.of_nat j) = false ->
  seen skw env (t1 + 200 * Z.of_nat j) = true ->
  s = true.
Proof.
  intros Hq Hx Hj Hal Hseen.
  assert (Hlate : (j < n)%nat -> False).
  { intros Hlt. destruct (Hq j Hlt) as [_ Hnb].
    unfold extended_break in Hnb. rewrite Hseen in Hnb.
    rewrite orb_true_r in Hnb. discriminate. }
  unfold extended_exit in Hx. cbv zeta in Hx.
  destruct Hx as [(H1 & _) | [(_ & H2 & _) | (_ & _ & _ & H4)]]; [| |exact H4].
  - exfalso. apply Hlate. lia.
  - exfalso. destruct (Nat.lt_ge_cases j n) as [Hlt|Hge]; [exact (Hlate Hlt)|].
    assert (Hle : t1 + 200 * Z.of_nat n <= t1 + 200 * Z.of_nat j) by lia.
    rewrite (exited_by_mono env _ _ Hle H2) in Hal. discriminate.
Qed.

End CompareFacts.

Section CheckStatements.

(** X15.  With a console that rejects its first line,
    [check_stream_status] raises at the [print] that precedes the [try]
    and returns nothing.  With a console that accepts every line it
    returns a boolean, and it returns [True] only if a line with one of
    its success keywords has arrived while the prober was running; the
    last message is then the one of a success. *)
Theorem check_stream_status_true_is_sound
  (env : Env) (name url : string) (timeout grace_period extended_check : Z) :
  check_stream_status env name url timeout grace_period extended_check
                      (console_world (Some 0%nat))
  = (Raise PrintError, console_world (Some 0%nat))
  /\ exists (b : bool) (w' : World),
       check_stream_status env name url timeout grace_period extended_check
                           initial_world
       = (Ret b, w')
       /\ (b = true ->
           last (console w') MsgConnecting = MsgSuccess name
           /\ exists (a : Z) (line : string),
                In (a, line) (stderr_lines env)
                /\ PyStr.any_in check_stream_status_success_keywords line = true
                /\ exited_by env a = false).
Proof.
  split; [reflexivity|].
  destruct (check_stream_status_run env name url timeout grace_period extended_check)
    as (b & w' & Hrun & [(-> & _) | (fl & w3 & w4 & _ & _ & _ & HR & _ & _ & -> & ->)]).
  - exists false, w'. split; [exact Hrun | discriminate].
  - exists (fst fl), (with_msg w4 (verdict_msg (verdict fl) name)).
    split; [exact Hrun|]. intros Hfl. split.
    + cbn [console with_msg]. rewrite last_last. unfold verdict. now rewrite Hfl.
    + destruct (PhasesRun_success_sound env _ _ _ _ _ _ _ _ HR eq_refl Hfl)
        as (t & Hal & Hseen).
      exact (seen_has_line env _ t Hal Hseen).
Qed.

(** X17.  When no call raises after [Popen] and, on Windows, taskkill
    reports success, the subprocess of [check_stream_status] is gone
    [sigkill_exit] after the session has returned.  At the return itself
    it may still be running, and then SIGKILL (or taskkill /F) has just
    been delivered to it: nothing waits after [process.kill()]. *)
Theorem check_stream_status_stops_process
  (env : Env) (name url : string) (timeout grace_period extended_check : Z) :
  (forall op, op <> OpPopen -> raises env op = false) ->
  (is_windows env = true -> taskkill_ok env = true) ->
  let w' :=
    snd (check_stream_status env name url timeout grace_period extended_check
                             initial_world) in
  running env (with_now w' (now w' + Z.max 0 (sigkill_exit env))) = false
  /\ (running env w' = true -> killed w' = Some (now w')).
Proof.
  intros Hq Hok.
  destruct (check_stream_status_run env name url timeout grace_period extended_check)
    as (b & w' & Hrun & [(_ & op & Hop & Hsp & _)
                        | (fl & w3 & w4 & _ & _ & _ & HR & _ & Hstopped & _ & ->)]);
    rewrite Hrun; cbn [snd].
  - destruct (Op_eq_dec_popen op) as [E|Hne].
    + unfold running. cbn [spawned with_now]. rewrite (Hsp E).
      split; [reflexivity | discriminate].
    + rewrite (Hq op Hne) in Hop. discriminate.
  - destruct (PhasesRun_world env _ _ _ _ _ _ _ _ HR
                (spawned_world_url_untouched name url)) as (Hu3 & _ & _).
    split.
    + exact (Stopped_gone_soon env w3 w4 Hu3 Hstopped Hok).
    + intros Hrunning.
      destruct (Stopped_cases env w3 w4 Hu3 Hstopped) as [Hd|[Hk|(Hw & Hf & _)]].
      * change (running env w4 = true) in Hrunning. congruence.
      * exact Hk.
      * rewrite (Hok Hw) in Hf. discriminate Hf.
Qed.

Lemma check_stream_status_stops_process_witness :
  let w' :=
    snd (check_stream_status env_opening "n" "u" 20000 10000 10000 initial_world) in
  running env_opening (with_now w' (now w' + Z.max 0 (sigkill_exit env_opening)))
  = false
  /\ (running env_opening w' = true -> killed w' = Some (now w')).
Proof.
  apply check_stream_status_stops_process.
  - intros op _. reflexivity.
  - intros H. discriminate H.
Defined.

(** X16.  When no call raises, [check_stream_status] returns [True] in
    every session in which [test_channel], called with the same timing
    arguments, returns [True]: its success keywords include those of
    [test_channel] and the connecting keywords are the same. *)
Theorem check_stream_status_accepts_more
  (env : Env) (name url : string) (timeout grace_period extended_check : Z)
  (w' : World) :
  (forall op, raises env op = false) ->
  test_channel env name url timeout grace_period extended_check initial_world
  = (Ret (name, url, true), w') ->
  fst (check_stream_status env name url timeout grace_period extended_check
                           initial_world)
  = Ret true.
Proof.
  intros Hq Hres.
  pose proof success_keywords_incl as Hi.
  destruct (check_stream_status_run env name url timeout grace_period extended_check)
    as (b & wc & Hrunc & [(_ & op & Hop & _)
                         | (flc & wc3 & wc4 & _ & _ & _ & HRc & _ & _ & -> & _)]);
    [rewrite Hq in Hop; discriminate|].
  rewrite Hrunc. cbn [fst]. f_equal.
  destruct (test_channel_run env name url timeout grace_period extended_check)
    as (r & w'' & Hrun & Hs).
  rewrite Hres in Hrun. injection Hrun as Er _. revert Er.
  destruct Hs as [Hp | Hp Hth | fl w3 w4 op Hp Hth Hph HR Hstop Hop Hal
                  | fl w3 w4 Hp Hth Hph HR Hstop Hstopped Hcon Hnow];
    intros Er; try discriminate Er.
  injection Er as Efl. symmetry in Efl.
  destruct HR as [n1 fl1 Hml Hqu Hx Hc
                 | n1 n2 fl1 s Hml Hqu Hx Hconn Hsucc t1 Hq2 Hx2];
    cbn [now spawned_world] in *.
  - (* success in the main loop of test_channel *)
    destruct (main_loop_flag_sound env _ _ _ _ _ _ Hqu Hx) as [Hs1 _].
    destruct (Hs1 Efl) as (j & Hj & Hal & Hseen).
    apply (seen_incl env _ _ _ Hi) in Hseen.
    destruct HRc as [m1 flc1 _ Hquc Hxc _
                    | m1 m2 flc1 sc _ Hquc Hxc _ Hsuccc tc1 _ _];
      cbn [now spawned_world_url] in *;
      destruct (main_loop_detects env _ _ _ _ _ _ j Hquc Hxc Hj Hal) as [Hd _];
      [exact (Hd Hseen) | rewrite (Hd Hseen) in Hsuccc; discriminate].
  - (* success in the extended loop of test_channel *)
    cbn [fst] in Efl. subst s.
    assert (Htick : t1 + 200 * Z.of_nat n2 - t1 < extended_check
                    /\ exited_by env (t1 + 200 * Z.of_nat n2) = false
                    /\ seen check_stream_status_success_keywords env
                            (t1 + 200 * Z.of_nat n2) = true).
    { unfold extended_exit in Hx2. cbv zeta in Hx2.
      destruct Hx2 as [(_ & H2) | [(_ & _ & H3) | (H1 & Hal & Hseen & _)]];
        try discriminate.
      rewrite orb_false_r in Hseen. split; [exact H1|]. split; [exact Hal|].
      exact (seen_incl env _ _ _ Hi Hseen). }
    destruct Htick as (Hin & Hal & Hseen).
    destruct (fst flc) eqn:Hfc; [reflexivity|]. exfalso.
    destruct HRc as [m1 flc1 _ Hquc Hxc Hcc
                    | m1 m2 flc1 sc _ Hquc Hxc Hconnc Hsuccc tc1 Hqc2 Hxc2];
      cbn [now spawned_world_url] in *.
    + destruct (main_runs_agree env _ _ _ _ _ _ _ _ _ Hi Hqu Hx Hquc Hxc Hfc)
        as [_ Hsnd].
      rewrite <- Hsnd, Hconn, Hfc in Hcc. discriminate.
    + cbn [fst] in Hfc. subst sc.
      destruct (main_runs_agree env _ _ _ _ _ _ _ _ _ Hi Hqu Hx Hquc Hxc Hsuccc)
        as [<- _].
      subst t1 tc1.
      pose proof (extended_loop_detects env _ _ _ _ _ n2 Hqc2 Hxc2 Hin Hal Hseen).
      discriminate.
Qed.

Lemma check_stream_status_accepts_more_witness :
  fst (check_stream_status env_success_at_300 "n" "u" 4000 1000 2000 initial_world)
  = Ret true.
Proof.
  apply (check_stream_status_accepts_more env_success_at_300 "n" "u" 4000 1000 2000
           (mkWorld 1050 true (Some 1000) None [MsgTesting "n"; MsgSuccess "n"] None)).
  - intros op. reflexivity.
  - vm_compute. reflexivity.
Defined.

End CheckStatements.

(* ===================================================================== *)
(** ** The result loop of [main]: further properties *)
(* ===================================================================== *)

Section DictFacts.

(** Reading a dictionary after [d[k] = v]. *)
Lemma dict_get_set (d : Dict) (k v k' : string) :
  dict_get (dict_set d k v) k' = if String.eqb k k' then Some v else dict_get d k'.
Proof.
  induction d as [|[k0 v0] d IH]; cbn [dict_set dict_get]; [reflexivity|].
  destruct (String.eqb_spec k0 k) as [->|Hne]; cbn [dict_get].
  - destruct (String.eqb k k'); reflexivity.
  - rewrite IH. destruct (String.eqb_spec k0 k') as [->|Hne']; [|reflexivity].
    destruct (String.eqb_spec k k') as [->|_]; [now elim Hne | reflexivity].
Qed.

Lemma dict_set_keys (d : Dict) (k v k' : string) :
  In k' (dict_keys (dict_set d k v)) <-> k' = k \/ In k' (dict_keys d).
Proof.
  unfold dict_keys.
  induction d as [|[k0 v0] d IH]; cbn [dict_set map fst In].
  - intuition.
  - destruct (String.eqb_spec k0 k) as [->|Hne]; cbn [map fst In].
    + intuition.
    + rewrite IH. intuition.
Qed.

(** [d[k] = v] keeps the keys distinct. *)
Lemma dict_set_NoDup (d : Dict) (k v : string) :
  NoDup (dict_keys d) -> NoDup (dict_keys (dict_set d k v)).
Proof.
  unfold dict_keys.
  induction d as [|[k0 v0] d IH]; cbn [dict_set map fst]; intros Hd.
  - repeat constructor. intros [].
  - inversion Hd as [|? ? Hnin Hd']; subst.
    destruct (String.eqb_spec k0 k) as [->|Hne]; cbn [map fst].
    + now constructor.
    + constructor; [|exact (IH Hd')].
      intros Hin. apply (dict_set_keys d k v k0) in Hin as [E|Hin];
        [now elim Hne | exact (Hnin Hin)].
Qed.

Lemma last_url_snoc (records : list (string * string * bool))
  (name url : string) (result : bool) (k : string) (b : bool) :
  last_url (records ++ [(name, url, result)]) k b
  = if String.eqb name k && Bool.eqb result b then Some url
    else last_url records k b.
Proof.
  induction records as [|[[n u] r] records IH]; cbn [app last_url].
  - reflexivity.
  - rewrite IH. destruct (String.eqb name k && Bool.eqb result b); [reflexivity|].
    reflexivity.
Qed.

Lemma record_result_invariant (st : MainState) (r : string * string * bool) :
  main_invariant st -> main_invariant (record_result st r).
Proof.
  intros (Hw & Hn & Hget). destruct r as [[name url] result].
  unfold main_invariant, record_result. cbn [working_channels not_working_channels log_file].
  destruct result.
  - split; [exact (dict_set_NoDup _ _ _ Hw)|]. split; [exact Hn|].
    intros k. destruct (Hget k) as [Hgw Hgn].
    rewrite !last_url_snoc, dict_get_set. cbn [Bool.eqb].
    rewrite andb_true_r, andb_false_r. now rewrite Hgw, Hgn.
  - split; [exact Hw|]. split; [exact (dict_set_NoDup _ _ _ Hn)|].
    intros k. destruct (Hget k) as [Hgw Hgn].
    rewrite !last_url_snoc, dict_get_set. cbn [Bool.eqb].
    rewrite andb_true_r, andb_false_r. now rewrite Hgw, Hgn.
Qed.

Lemma main_collect_invariant (completed : list Future) :
  forall st st' : MainState,
    main_collect completed st = Ret st' -> main_invariant st -> main_invariant st'.
Proof.
  induction completed as [|f completed IH]; intros st st' Hc Hinv; cbn [main_collect] in Hc.
  - now injection Hc as <-.
  - destruct f as [r| |]; try discriminate Hc.
    exact (IH _ _ Hc (record_result_invariant st r Hinv)).
Qed.

Lemma main_start_invariant : main_invariant main_start.
Proof.
  unfold main_invariant, main_start. cbn. repeat split; constructor.
Qed.

End DictFacts.

Section MainProperties.

Variable env_of : nat -> Env.
Variable console_of : nat -> option nat.
Variable as_completed : list Future -> list Future.
Variable lines : list string.
Variable st : MainState.
Hypothesis main_returns : main env_of console_of as_completed (Some lines) = Ret st.

Lemma main_keeps_invariant : main_invariant st.
Proof.
  unfold main in main_returns.
  exact (main_collect_invariant _ _ _ main_returns main_start_invariant).
Qed.

(** X18.  When [main] is done, no name occurs twice among the keys of
    [working_channels], nor among those of [not_working_channels],
    however many entries of the playlist share a name. *)
Theorem main_dict_keys_distinct :
  NoDup (dict_keys (working_channels st))
  /\ NoDup (dict_keys (not_working_channels st)).
Proof.
  destruct main_keeps_invariant as (Hw & Hn & _). now split.
Qed.

(** X19.  When [main] is done, [working_channels] maps a name to the
    URL of the last record of the log that has this name and the result
    [True], and has no such key when the log has no such record;
    [not_working_channels] does the same for the result [False].  Of
    several entries with one name and one result, the one that finished
    last is kept. *)
Theorem main_dicts_hold_last_urls (k : string) :
  dict_get (working_channels st) k = last_url (log_file st) k true
  /\ dict_get (not_working_channels st) k = last_url (log_file st) k false.
Proof.
  destruct main_keeps_invariant as (_ & _ & Hget). exact (Hget k).
Qed.

End MainProperties.

Lemma main_dict_keys_distinct_witness :
  NoDup (dict_keys [("Two", "http://a/2")])
  /\ NoDup (dict_keys [("One", "http://a/1")]).
Proof.
  apply (main_dict_keys_distinct env_of_example (fun _ => None) (@rev Future)
           playlist_example
           (mkMainState [("Two", "http://a/2")] [("One", "http://a/1")]
                        [("Two", "http://a/2", true); ("One", "http://a/1", false)])).
  vm_compute. reflexivity.
Defined.

Lemma main_dicts_hold_last_urls_witness :
  dict_get [("Two", "http://a/2")] "Two"
  = last_url [("Two", "http://a/2", true); ("One", "http://a/1", false)] "Two" true
  /\ dict_get [("One", "http://a/1")] "Two"
     = last_url [("Two", "http://a/2", true); ("One", "http://a/1", false)] "Two" false.
Proof.
  apply (main_dicts_hold_last_urls env_of_example (fun _ => None) (@rev Future)
           playlist_example
           (mkMainState [("Two", "http://a/2")] [("One", "http://a/1")]
                        [("Two", "http://a/2", true); ("One", "http://a/1", false)])).
  vm_compute. reflexivity.
Defined.

Section ReportProperties.

Lemma dict_get_in_keys (d : Dict) (k v : string) :
  dict_get d k = Some v -> In k (dict_keys d).
Proof.
  unfold dict_keys. induction d as [|[k0 v0] d IH]; cbn [dict_get map fst In];
    [discriminate|].
  destruct (String.eqb_spec k0 k) as [->|_]; [now left | right; now apply IH].
Qed.

Lemma last_url_of_record (records : list (string * string * bool))
  (name url : string) (result : bool) :
  In (name, url, result) records ->
  exists u : string, last_url records name result = Some u.
Proof.
  induction records as [|[[n0 u0] r0] records IH]; cbn [In last_url]; [intros []|].
  intros [E|Hin].
  - injection E as -> -> ->.
    destruct (last_url records name result) as [u|]; [now exists u|].
    rewrite String.eqb_refl, Bool.eqb_reflx. now exists url.
  - destruct (IH Hin) as (u & ->). now exists u.
Qed.

(** X20.  When [main] is done, the name of every record of the log is
    a key of the dictionary of its result: of [working_channels] when
    the result is [True], of [not_working_channels] when it is [False]. *)
Theorem main_reports_every_record
  (env_of : nat -> Env) (console_of : nat -> option nat)
  (as_completed : list Future -> list Future)
  (lines : list string) (st : MainState) (name url : string) (result : bool) :
  main env_of console_of as_completed (Some lines) = Ret st ->
  In (name, url, result) (log_file st) ->
  In name (dict_keys (if result then working_channels st
                      else not_working_channels st)).
Proof.
  intros Hmain Hin.
  destruct (main_keeps_invariant _ _ _ _ _ Hmain) as (_ & _ & Hget).
  destruct (last_url_of_record _ _ _ _ Hin) as (u & Hu).
  destruct (Hget name) as [Hw Hn].
  destruct result; [rewrite <- Hw in Hu | rewrite <- Hn in Hu];
    exact (dict_get_in_keys _ _ _ Hu).
Qed.

Lemma main_reports_every_record_witness :
  In "One" (dict_keys [("One", "http://a/1")]).
Proof.
  apply (main_reports_every_record env_of_example (fun _ => None) (@rev Future)
           playlist_example
           (mkMainState [("Two", "http://a/2")] [("One", "http://a/1")]
                        [("Two", "http://a/2", true); ("One", "http://a/1", false)])
           "One" "http://a/1" false).
  - vm_compute. reflexivity.
  - right. left. reflexivity.
Defined.

(** X21.  A prober that keeps running and writes no success line is
    given the whole timeout: when [Popen] and [Thread.start] do not
    raise, the session does not return before [timeout]. *)
Theorem silent_prober_gets_timeout
  (env : Env) (name url : string) (timeout grace_period extended_check : Z) :
  raises env OpPopen = false -> raises env OpThreadStart = false ->
  self_exit env = None ->
  (forall t, seen test_channel_success_keywords env t = false) ->
  timeout <= now (snd (test_channel env name url timeout grace_period extended_check
                                    initial_world)).
Proof.
  intros Hp0 Hth0 Hne Hns.
  assert (Hph : forall fl w3,
             PhasesRun env test_channel_success_keywords test_channel_connecting_keywords
                       timeout grace_period extended_check (spawned_world name) fl w3 ->
             timeout <= now w3).
  { intros fl w3 HR.
    destruct (Z.le_gt_cases timeout 0) as [Ht|Ht].
    - pose proof (PhasesRun_bound env _ _ _ _ _ _ _ _ HR eq_refl). lia.
    - pose proof (loop_end_bounds timeout ltac:(lia)) as B.
      destruct HR as [n1 fl1 Hml Hqu Hx Hc
                     | n1 n2 fl1 s Hml Hqu Hx Hconn Hsucc t1 Hq2 Hx2];
        cbn [now spawned_world with_now with_msg] in *;
        destruct (main_loop_to_timeout env _ _ timeout grace_period n1 fl1
                    Hne Hns Ht Hqu Hx) as [Hn1 _]; subst; lia. }
  destruct (test_channel_run env name url timeout grace_period extended_check)
    as (r & w' & Hrun & Hs).
  rewrite Hrun. cbn [snd].
  destruct Hs as [Hp | Hp Hth | fl w3 w4 op Hp Hth Hph' HR Hstop Hop Hal
                  | fl w3 w4 Hp Hth Hph' HR Hstop Hstopped Hcon Hnow];
    try congruence; cbn [now with_msg]; specialize (Hph _ _ HR).
  - destruct (PhasesRun_world env _ _ _ _ _ _ _ _ HR (spawned_world_untouched name))
      as (Hu3 & _ & _).
    destruct (stop_process_world env w3 w4 _ Hu3 Hstop) as [_ Hnow]. lia.
  - lia.
Qed.

Lemma silent_prober_gets_timeout_witness :
  4000 <= now (snd (test_channel env_silent "n" "u" 4000 1000 2000 initial_world)).
Proof.
  apply silent_prober_gets_timeout; try reflexivity.
Defined.

End ReportProperties.
